(** * Pants: target sorting and zinc analysis extraction

    A shallow embedding of
      - [pants/backend/graph_info/tasks/sort_targets.py]  ([SortTargets])
      - [pants/backend/jvm/tasks/analysis_extraction.py]  ([AnalysisExtraction])
    together with the properties the design document states about them. *)

From Stdlib Require Import Ascii.
From stdpp Require Import gmap strings list fin_maps relations.

Local Open Scope string_scope.
Local Open Scope list_scope.
Local Open Scope nat_scope.

(** A target is identified by its address; [target.address.spec] and
    [target.address.reference()] are read off that identity. *)
Abbreviation Target := string (only parsing).

(** ** Part I: the sorter *)

(** The build graph: every target's ordered direct dependencies. *)
Abbreviation BuildGraph := (gmap Target (list Target)) (only parsing).

Definition dependencies (g : BuildGraph) (t : Target) : list Target :=
  default [] (g !! t).

Definition edge (g : BuildGraph) (t d : Target) : Prop := d ∈ dependencies g t.

#[global] Instance edge_dec g t d : Decision (edge g t d).
Proof. unfold edge. apply _. Defined.

(** Results of the sorter: a sequence, the fatal [CycleError], or the
    exhaustion of the recursion budget of the model (shown below never to
    happen). *)
Inductive outcome (A : Type) : Type :=
| Done (a : A)
| CycleError (cycle : list Target)
| OutOfFuel.
Arguments Done {A} a.
Arguments CycleError {A} cycle.
Arguments OutOfFuel {A}.

Fixpoint visit_each (f : Target → list Target → outcome (list Target))
    (ts : list Target) (ordered : list Target) : outcome (list Target) :=
  match ts with
  | [] => Done ordered
  | t :: ts' =>
      match f t ordered with
      | Done ordered' => visit_each f ts' ordered'
      | CycleError c => CycleError c
      | OutOfFuel => OutOfFuel
      end
  end.

(** Modelled from the spec: [sort_targets] lives in
    [pants.build_graph.build_graph], which is not part of the sources at
    hand.  The design document asks for an order in which each target
    appears only after all targets that depend on it (most-dependent first),
    ties broken deterministically by input order, and for [CycleError] when
    the subgraph reachable from the input contains a cycle.  A depth-first
    walk over the dependencies, in input order, that places a target in
    front of everything placed so far once all its dependencies are placed,
    and that fails when it meets a target still on the current path. *)
Fixpoint visit (g : BuildGraph) (fuel : nat) (path : list Target)
    (t : Target) (ordered : list Target) : outcome (list Target) :=
  match fuel with
  | 0 => OutOfFuel
  | S fuel' =>
      if decide (t ∈ path) then CycleError (t :: path)
      else if decide (t ∈ ordered) then Done ordered
      else
        match visit_each (visit g fuel' (t :: path)) (dependencies g t) ordered with
        | Done ordered' => Done (t :: ordered')
        | CycleError c => CycleError c
        | OutOfFuel => OutOfFuel
        end
  end.

Definition sort_targets (g : BuildGraph) (targets : list Target)
    : outcome (list Target) :=
  visit_each (visit g (S (size g)) []) targets [].

Definition address_reference (t : Target) : string := t.

(** [SortTargets.console_output]; [reverse] is [self.get_options().reverse]
    and [target_roots] is [self.context.target_roots].  [sort_targets] runs
    to completion before the first line is yielded. *)
Definition console_output (g : BuildGraph) (reverse : bool)
    (target_roots : list Target) (targets : list Target) : outcome (list string) :=
  match sort_targets g targets with
  | Done sorted_targets =>
      let sorted_targets :=
        if negb reverse then rev sorted_targets else sorted_targets in
      Done (address_reference <$> filter (λ target, target ∈ target_roots) sorted_targets)
  | CycleError c => CycleError c
  | OutOfFuel => OutOfFuel
  end.

(** Graph vocabulary used by the statements. *)
Definition cyclic_reachable (g : BuildGraph) (targets : list Target) : Prop :=
  ∃ r x, r ∈ targets ∧ rtc (edge g) r x ∧ tc (edge g) x x.

Fixpoint dependents_first (g : BuildGraph) (l : list Target) : Prop :=
  match l with
  | [] => True
  | x :: l' => (∀ d, edge g x d → d ∈ l') ∧ dependents_first g l'
  end.

Fixpoint linked (g : BuildGraph) (path : list Target) (t : Target) : Prop :=
  match path with
  | [] => True
  | p :: path' => edge g p t ∧ linked g path' p
  end.

(** ** Part II: analysis extraction *)

(** Python exceptions that can leave [AnalysisExtraction.execute]. *)
Inductive exn : Type :=
| NameError (name : string)
| TaskError (msg : string) (exit_code : Z)
| KeyError (key : string)
| IOError (path : string)
| ValueError (path : string).

(** The summary document: [summary_json['products']] maps an absolute source
    path to the class files produced from it (in the dictionary's iteration
    order), [summary_json['dependencies']] is passed through untouched.  A
    field is [None] when the document lacks the key. *)
Abbreviation EdgeData := (list (string * list string)) (only parsing).

Record SummaryJson : Type := {
  sj_products : option (list (string * list string));
  sj_dependencies : option EdgeData;
}.

Inductive file : Type :=
| NotJson
| JsonDoc (doc : SummaryJson).

(** Modelled from the spec: [MultipleRootedProducts] lives in
    [pants.goal.products], which is not part of the sources at hand.  The
    design document describes the value kept per source as an
    ownership-tagged multiset of output paths to which a merge appends the
    new paths, tagged with the owning target's classpath entry. *)
Abbreviation MultipleRootedProducts := (list (string * string)) (only parsing).

Definition add_abs_paths (mrp : MultipleRootedProducts) (root : string)
    (abs_paths : list string) : MultipleRootedProducts :=
  mrp ++ ((λ p, (root, p)) <$> abs_paths).

(** [self.context.products]: what downstream consumers require, the
    [zinc_analysis] product (target to [(classes dir, jar, analysis file)])
    and the two products of this task, absent ([None]) until created. *)
Record Products : Type := {
  required_data_products : list string;
  zinc_analysis : gmap Target (string * string * string);
  classes_by_source : option (gmap string MultipleRootedProducts);
  product_deps_by_src : option (gmap Target EdgeData);
}.

(** What the task does to the outside world, in order. *)
Inductive event : Type :=
| RunJava (main : string) (args : list string)
| OpenRead (path : string).

Record World : Type := {
  products : Products;
  fs : gmap string file;
  trace : list event;
}.

(** One versioned target of [invalidation_check.all_vts]. *)
Record VersionedTarget : Type := {
  vt_target : Target;
  vt_valid : bool;
  vt_results_dir : string;
}.

(** The collaborators the task calls into. *)
Record Env : Type := {
  get_buildroot : string;
  relpath : string → string → string;
  compile_classpath : Target → list string;
  rebase_map_args : list string;
  runjava : list string → gmap string file → Z * gmap string file;
  invalidated : list Target → list VersionedTarget;
}.

(** Python hands out the registry's own objects: the locals
    [classes_by_source] and [product_deps_by_src] of [execute] are either
    [None] or references to the maps kept in [self.context.products], and a
    mutation through the reference is seen by every holder.  A reference is
    the name of the product it points to. *)
Inductive ref (name : string) : Type := Ref.
Arguments Ref {name}.

(** *** State and exceptions *)

Definition M (A : Type) : Type := World → World * (exn + A).

#[global] Instance M_ret : MRet M := λ A a w, (w, inr a).
#[global] Instance M_bind : MBind M := λ A B k m w,
  match m w with
  | (w', inr a) => k a w'
  | (w', inl e) => (w', inl e)
  end.

Definition raise {A} (e : exn) : M A := λ w, (w, inl e).

Definition emit (ev : event) : M unit := λ w,
  ({| products := products w; fs := fs w; trace := trace w ++ [ev] |}, inr tt).

Definition get_products : M Products := λ w, (w, inr (products w)).

Definition set_classes_by_source (v : option (gmap string MultipleRootedProducts))
    : M unit := λ w,
  ({| products := {| required_data_products := required_data_products (products w);
                     zinc_analysis := zinc_analysis (products w);
                     classes_by_source := v;
                     product_deps_by_src := product_deps_by_src (products w) |};
      fs := fs w; trace := trace w |}, inr tt).

Definition set_product_deps_by_src (v : option (gmap Target EdgeData))
    : M unit := λ w,
  ({| products := {| required_data_products := required_data_products (products w);
                     zinc_analysis := zinc_analysis (products w);
                     classes_by_source := classes_by_source (products w);
                     product_deps_by_src := v |};
      fs := fs w; trace := trace w |}, inr tt).

Fixpoint for_each {A} (l : list A) (body : A → M unit) : M unit :=
  match l with
  | [] => mret tt
  | x :: l' => body x ;; for_each l' body
  end.

(** The names bound at module level in [analysis_extraction.py]: its
    imports and the class it defines. *)
Definition module_globals : list string :=
  [ "absolute_import"; "division"; "generators"; "nested_scopes";
    "print_function"; "unicode_literals"; "with_statement";
    "json"; "os"; "defaultdict"; "DependencyContext"; "Zinc"; "NailgunTask";
    "get_buildroot"; "WorkUnitLabel"; "MultipleRootedProducts";
    "JarDependency"; "memoized_property"; "AnalysisExtraction" ].

(** Evaluating a global name: a name that is neither bound in the module
    nor a builtin raises [NameError] before anything is done with it. *)
Definition load_global {A} (name : string) (k : M A) : M A :=
  if decide (name ∈ module_globals) then k else raise (NameError name).

(** *** The products registry *)

(** Modelled from the spec: [is_required_data], [safe_create_data] and
    [get_data] belong to [pants.goal.products], which is not part of the
    sources at hand.  A product kind is required when a downstream consumer
    asked for it; creating a product initialises an empty map for it;
    [get_data] yields the registry's map, or [None] when there is none. *)
Definition is_required_data (typename : string) : M bool :=
  p ← get_products; mret (bool_decide (typename ∈ required_data_products p)).

Definition safe_create_classes_by_source : M unit := set_classes_by_source (Some ∅).

Definition safe_create_product_deps_by_src : M unit := set_product_deps_by_src (Some ∅).

Definition get_data_classes_by_source : M (option (ref "classes_by_source")) :=
  p ← get_products;
  mret (match classes_by_source p with Some _ => Some Ref | None => None end).

Definition get_data_product_deps_by_src : M (option (ref "product_deps_by_src")) :=
  p ← get_products;
  mret (match product_deps_by_src p with Some _ => Some Ref | None => None end).

(** [classes_by_source[source].add_abs_paths(root, classes)] on the
    [defaultdict(MultipleRootedProducts)] behind the reference: a missing
    key is first bound to an empty [MultipleRootedProducts]. *)
Definition classes_by_source_add (r : ref "classes_by_source")
    (source root : string) (classes : list string) : M unit :=
  p ← get_products;
  set_classes_by_source
    ((λ m, <[source := add_abs_paths (default [] (m !! source)) root classes]> m)
       <$> classes_by_source p).

(** [product_deps_by_src[target] = deps] on the [dict] behind the reference. *)
Definition product_deps_by_src_set (r : ref "product_deps_by_src")
    (target : Target) (deps : EdgeData) : M unit :=
  p ← get_products;
  set_product_deps_by_src ((λ m, <[target := deps]> m) <$> product_deps_by_src p).

(** *** The task *)

Definition _create_products_if_should_run : M bool :=
  let should_run := false in
  required ← is_required_data "classes_by_source";
  should_run ← (if required : bool
                then safe_create_classes_by_source ;; mret true
                else mret should_run);
  required ← is_required_data "product_deps_by_src";
  should_run ← (if required : bool
                then safe_create_product_deps_by_src ;; mret true
                else mret should_run);
  mret should_run.

(** [os.path.join(a, b)] for two components. *)
Definition ends_with_slash (a : string) : bool :=
  match String.get (String.length a - 1) a with
  | Some c => bool_decide (c = "/"%char)
  | None => false
  end.

Definition os_path_join (a b : string) : string :=
  if String.prefix "/" b then b
  else if bool_decide (a = "") || ends_with_slash a then a +:+ b
  else a +:+ "/" +:+ b.

Definition _summary_json_file (vt : VersionedTarget) : string :=
  os_path_join (vt_results_dir vt) "summary.json".

(** The memoized [_analysis_by_runtime_entry], computed from the
    [zinc_analysis] product. *)
Definition _analysis_by_runtime_entry
    (zinc_analysis : gmap Target (string * string * string)) : gmap string string :=
  foldl (λ m '(_, cp_entry, analysis_file), <[cp_entry := analysis_file]> m)
        ∅ (map_to_list zinc_analysis).*2.

Fixpoint _upstream_analysis (target_classpath : list string)
    (analysis_by_cp_entry : gmap string string) : list (string * string) :=
  match target_classpath with
  | [] => []
  | entry :: rest =>
      match analysis_by_cp_entry !! entry with
      | Some analysis_file =>
          (entry, analysis_file) :: _upstream_analysis rest analysis_by_cp_entry
      | None => _upstream_analysis rest analysis_by_cp_entry
      end
  end.

(** The argument list built by [_extract_analysis]. *)
Definition extractor_args (env : Env) (analysis_by_cp_entry : gmap string string)
    (target : Target) (analysis_file summary_json_file : string) : list string :=
  let target_classpath := compile_classpath env target in
  let upstream_analysis := _upstream_analysis target_classpath analysis_by_cp_entry in
  [ "-summary-json"; summary_json_file;
    "-analysis-cache"; analysis_file;
    "-classpath"; String.concat ":" target_classpath;
    "-analysis-map";
    String.concat "," ((λ '(k, v), k +:+ ":" +:+ v) <$> upstream_analysis) ]
  ++ rebase_map_args env.

(** [self.runjava(...)]: the tool runs to completion, may write files, and
    its exit status comes back. *)
Definition tool_effect (env : Env) (args : list string) : M Z := λ w,
  let '(result, fs') := runjava env args (fs w) in
  ({| products := products w; fs := fs'; trace := trace w |}, inr result).

Definition do_runjava (env : Env) (main : string) (args : list string) : M Z :=
  emit (RunJava main args) ;; tool_effect env args.

Definition main_class : string := "org.pantsbuild.zinc.extractor.Main".

(** [_extract_analysis].  The exception raised on a non-zero exit status is
    named by the global [TaskError], looked up when the [raise] statement
    is evaluated. *)
Definition _extract_analysis (env : Env) (target : Target)
    (analysis_file summary_json_file : string) : M unit :=
  p ← get_products;
  let analysis_by_cp_entry := _analysis_by_runtime_entry (zinc_analysis p) in
  let args :=
    extractor_args env analysis_by_cp_entry target analysis_file summary_json_file in
  result ← do_runjava env main_class args;
  if decide (result ≠ 0%Z)
  then load_global "TaskError"
         (raise (TaskError ("Failed to parse analysis for " +:+ target) result))
  else mret tt.

(** [json.load(open(path))]: a missing file and a file that is not a JSON
    document both raise. *)
Definition json_load (path : string) : M SummaryJson := λ w,
  match fs w !! path with
  | None => (w, inl (IOError path))
  | Some NotJson => (w, inl (ValueError path))
  | Some (JsonDoc doc) => (w, inr doc)
  end.

Definition _parse_summary_json (summary_json_file : string) : M SummaryJson :=
  emit (OpenRead summary_json_file) ;; json_load summary_json_file.

Definition _register_products (env : Env) (target : Target)
    (target_cp_entry summary_json_file : string)
    (classes_by_source : option (ref "classes_by_source"))
    (product_deps_by_src : option (ref "product_deps_by_src")) : M unit :=
  summary_json ← _parse_summary_json summary_json_file;
  match classes_by_source with
  | Some classes_by_source =>
      let buildroot := get_buildroot env in
      match sj_products summary_json with
      | None => raise (KeyError "products")
      | Some items =>
          for_each items (λ '(abs_src, classes),
            let source := relpath env abs_src buildroot in
            classes_by_source_add classes_by_source source target_cp_entry classes)
      end
  | None => mret tt
  end ;;
  match product_deps_by_src with
  | Some product_deps_by_src =>
      match sj_dependencies summary_json with
      | None => raise (KeyError "dependencies")
      | Some deps => product_deps_by_src_set product_deps_by_src target deps
      end
  | None => mret tt
  end.

(** The body of the loop over [invalidation_check.all_vts]. *)
Definition execute_vt (env : Env)
    (zinc_analysis : gmap Target (string * string * string))
    (classes_by_source : option (ref "classes_by_source"))
    (product_deps_by_src : option (ref "product_deps_by_src"))
    (vt : VersionedTarget) : M unit :=
  let summary_json_file := _summary_json_file vt in
  match zinc_analysis !! vt_target vt with
  | None => raise (KeyError (vt_target vt))
  | Some (cp_entry, _, analysis_file) =>
      (if negb (vt_valid vt)
       then _extract_analysis env (vt_target vt) analysis_file summary_json_file
       else mret tt) ;;
      _register_products env (vt_target vt) cp_entry summary_json_file
                         classes_by_source product_deps_by_src
  end.

(** [AnalysisExtraction.execute].  The [runtime_classpath] product and the
    fingerprint strategy only feed the invalidation check, which is the
    collaborator [invalidated]. *)
Definition execute (env : Env) : M unit :=
  should_run ← _create_products_if_should_run;
  if negb should_run then mret tt
  else
    p ← get_products;
    let zinc_analysis := zinc_analysis p in
    classes_by_source ← get_data_classes_by_source;
    product_deps_by_src ← get_data_product_deps_by_src;
    let targets := (map_to_list zinc_analysis).*1 in
    let all_vts := invalidated env targets in
    for_each all_vts
      (execute_vt env zinc_analysis classes_by_source product_deps_by_src).

(** *** Vocabulary of the statements *)

(** Observations of the world. *)
Definition the_zinc_analysis (w : World) := zinc_analysis (products w).
Definition the_required (w : World) := required_data_products (products w).
Definition the_classes_by_source (w : World) := classes_by_source (products w).
Definition the_product_deps_by_src (w : World) := product_deps_by_src (products w).

(** What [get_data] returns for a registry slot. *)
Definition ref_of {A} (name : string) (o : option A) : option (ref name) :=
  match o with Some _ => Some Ref | None => None end.

(** [preserves f m]: whatever [m] does, and however it ends, the
    observation [f] of the world is the same afterwards. *)
Definition preserves {A X} (f : World → X) (m : M A) : Prop :=
  ∀ w, f (m w).1 = f w.

(** The pure counterpart of the loop over [summary_json['products']]. *)
Definition merge_products (env : Env) (target_cp_entry : string)
    (items : list (string * list string))
    (m : gmap string MultipleRootedProducts) : gmap string MultipleRootedProducts :=
  foldl (λ m '(abs_src, classes),
           let source := relpath env abs_src (get_buildroot env) in
           <[source := add_abs_paths (default [] (m !! source)) target_cp_entry classes]> m)
        m items.

(** What one source gains from a summary: the outputs of every item stored
    under that source, tagged with the classpath entry. *)
Definition contribution (env : Env) (target_cp_entry : string)
    (items : list (string * list string)) (source : string)
    : MultipleRootedProducts :=
  flat_map (λ '(_, classes), (λ p, (target_cp_entry, p)) <$> classes)
           (filter (λ item, relpath env item.1 (get_buildroot env) = source) items).

(** The two product kinds of the task. *)
Inductive product_kind : Type := ClassesBySource | ProductDepsBySrc.

Definition kind_name (k : product_kind) : string :=
  match k with
  | ClassesBySource => "classes_by_source"
  | ProductDepsBySrc => "product_deps_by_src"
  end.

Definition created (k : product_kind) (w : World) : bool :=
  match k with
  | ClassesBySource => bool_decide (is_Some (classes_by_source (products w)))
  | ProductDepsBySrc => bool_decide (is_Some (product_deps_by_src (products w)))
  end.

(** The classpath entry and the analysis file [execute] reads off
    [zinc_analysis[vt.target]]. *)
Definition cp_entry_of (zinc_analysis : gmap Target (string * string * string))
    (target : Target) : string :=
  from_option (λ x, x.1.1) "" (zinc_analysis !! target).

Definition analysis_file_of (zinc_analysis : gmap Target (string * string * string))
    (target : Target) : string :=
  from_option (λ x, x.2) "" (zinc_analysis !! target).

(** The events one versioned target contributes to a run that completes:
    an invocation of the tool when it is invalid, then the read of its
    summary. *)
Definition vt_events (env : Env)
    (zinc_analysis : gmap Target (string * string * string))
    (vt : VersionedTarget) : list event :=
  (if vt_valid vt then []
   else [RunJava main_class
           (extractor_args env (_analysis_by_runtime_entry zinc_analysis)
              (vt_target vt) (analysis_file_of zinc_analysis (vt_target vt))
              (_summary_json_file vt))])
  ++ [OpenRead (_summary_json_file vt)].

(** The pure counterparts of merging the summary [doc] read for [vt]. *)
Definition merge_classes (env : Env)
    (zinc_analysis : gmap Target (string * string * string))
    (m : gmap string MultipleRootedProducts) (read : VersionedTarget * SummaryJson)
    : gmap string MultipleRootedProducts :=
  merge_products env (cp_entry_of zinc_analysis (vt_target read.1))
                 (default [] (sj_products read.2)) m.

Definition merge_deps (m : gmap Target EdgeData) (read : VersionedTarget * SummaryJson)
    : gmap Target EdgeData :=
  <[vt_target read.1 := default [] (sj_dependencies read.2)]> m.

(** What [_register_products] does once the summary is parsed. *)
Definition register_parsed (env : Env) (target : Target) (target_cp_entry : string)
    (classes_by_source : option (ref "classes_by_source"))
    (product_deps_by_src : option (ref "product_deps_by_src"))
    (summary_json : SummaryJson) : M unit :=
  match classes_by_source with
  | Some classes_by_source =>
      let buildroot := get_buildroot env in
      match sj_products summary_json with
      | None => raise (KeyError "products")
      | Some items =>
          for_each items (λ '(abs_src, classes),
            let source := relpath env abs_src buildroot in
            classes_by_source_add classes_by_source source target_cp_entry classes)
      end
  | None => mret tt
  end ;;
  match product_deps_by_src with
  | Some product_deps_by_src =>
      match sj_dependencies summary_json with
      | None => raise (KeyError "dependencies")
      | Some deps => product_deps_by_src_set product_deps_by_src target deps
      end
  | None => mret tt
  end.

Definition is_RunJava (ev : event) : bool :=
  match ev with RunJava _ _ => true | OpenRead _ => false end.

(** [AnalysisExtraction.product_types]. *)
Definition product_types : list string :=
  ["classes_by_source"; "product_deps_by_src"].

(** The invocations of the tool recorded so far. *)
Definition tool_runs (w : World) : list event :=
  filter (λ ev, is_RunJava ev = true) (trace w).

(** [respects m]: what [m] returns and what it leaves in the products
    registry depend on the registry alone, not on the files or the trace. *)
Definition respects {A} (m : M A) : Prop :=
  ∀ w w0, products w = products w0 →
          products (m w).1 = products (m w0).1 ∧ (m w).2 = (m w0).2.

(** The files in which a versioned target's summary is looked up: the
    files as they are when the target is valid, the files as the tool
    leaves them when it is not. *)
Definition fs_after_extract (env : Env)
    (zinc_analysis : gmap Target (string * string * string))
    (vt : VersionedTarget) (files : gmap string file) : gmap string file :=
  if vt_valid vt then files
  else (runjava env
          (extractor_args env (_analysis_by_runtime_entry zinc_analysis)
             (vt_target vt) (analysis_file_of zinc_analysis (vt_target vt))
             (_summary_json_file vt)) files).2.

(** The exit status of the tool for a versioned target, [0] when the
    target is valid and the tool is not run. *)
Definition exit_status (env : Env)
    (zinc_analysis : gmap Target (string * string * string))
    (vt : VersionedTarget) (files : gmap string file) : Z :=
  if vt_valid vt then 0%Z
  else (runjava env
          (extractor_args env (_analysis_by_runtime_entry zinc_analysis)
             (vt_target vt) (analysis_file_of zinc_analysis (vt_target vt))
             (_summary_json_file vt)) files).1.

(** What is on disk under each versioned target's summary path at the
    moment the loop of [execute] reads it, starting from [files]. *)
Fixpoint summaries_read (env : Env)
    (zinc_analysis : gmap Target (string * string * string))
    (vts : list VersionedTarget) (files : gmap string file) : list (option file) :=
  match vts with
  | [] => []
  | vt :: vts' =>
      let files' := fs_after_extract env zinc_analysis vt files in
      (files' !! _summary_json_file vt) :: summaries_read env zinc_analysis vts' files'
  end.

(** The documents among what was found on disk. *)
Definition summaries_of (found : list (option file)) : list SummaryJson :=
  omap (λ o, match o with Some (JsonDoc doc) => Some doc | _ => None end) found.

(** The exit statuses of the tool along the loop, starting from [files]. *)
Fixpoint exit_statuses (env : Env)
    (zinc_analysis : gmap Target (string * string * string))
    (vts : list VersionedTarget) (files : gmap string file) : list Z :=
  match vts with
  | [] => []
  | vt :: vts' =>
      exit_status env zinc_analysis vt files
      :: exit_statuses env zinc_analysis vts' (fs_after_extract env zinc_analysis vt files)
  end.

(** The files after the loop has gone through [vts], starting from [files]. *)
Definition fs_after_run (env : Env)
    (zinc_analysis : gmap Target (string * string * string))
    (vts : list VersionedTarget) (files : gmap string file) : gmap string file :=
  foldl (λ files vt, fs_after_extract env zinc_analysis vt files) files vts.

(** The same collaborators, with an invalidation check that returns [vts]. *)
Definition restrict_to (env : Env) (vts : list VersionedTarget) : Env :=
  {| get_buildroot := get_buildroot env;
     relpath := relpath env;
     compile_classpath := compile_classpath env;
     rebase_map_args := rebase_map_args env;
     runjava := runjava env;
     invalidated := λ _, vts |}.

(** ** Concrete inputs *)

(** Enough of [os.path.relpath] for paths below the start directory. *)
Definition demo_relpath (path start : string) : string :=
  let pre := start +:+ "/" in
  if String.prefix pre path
  then String.substring (String.length pre) (String.length path - String.length pre) path
  else path.

Definition demo_zinc_analysis : gmap Target (string * string * string) :=
  {[ "A" := ("/out/A", "libA.jar", "a.analysis");
     "B" := ("/out/B", "libB.jar", "b.analysis") ]}.

Definition demo_classpath (target : Target) : list string :=
  if bool_decide (target = "B") then ["libX.jar"; "libA.jar"] else ["libX.jar"].

Definition demo_summary (analysis_file : string) : SummaryJson :=
  if bool_decide (analysis_file = "b.analysis")
  then {| sj_products := Some [("/root/Shared.scala", ["/out/B/Shared.class"]);
                               ("/root/B.scala", ["/out/B/B.class"])];
          sj_dependencies := Some [("/out/B/B.class", ["/out/A/A.class"])] |}
  else {| sj_products := Some [("/root/Shared.scala", ["/out/A/Shared.class"]);
                               ("/root/A.scala", ["/out/A/A.class"])];
          sj_dependencies := Some [] |}.

(** A tool that writes the summary where [-summary-json] points and exits
    with [code]. *)
Definition demo_tool (code : Z) (args : list string) (files : gmap string file)
    : Z * gmap string file :=
  match args with
  | _ :: summary_json_file :: _ :: analysis_file :: _ =>
      if bool_decide (code = 0%Z)
      then (code, <[summary_json_file := JsonDoc (demo_summary analysis_file)]> files)
      else (code, files)
  | _ => (code, files)
  end.

(** The collaborators of the examples: the tool exits with [code], and
    the invalidation check finds exactly the targets in [valid] valid. *)
Definition demo_env (code : Z) (valid : list Target) : Env :=
  {| get_buildroot := "/root";
     relpath := demo_relpath;
     compile_classpath := demo_classpath;
     rebase_map_args := ["-rebase-map"; "/root:."];
     runjava := demo_tool code;
     invalidated := λ targets,
       (λ t, {| vt_target := t; vt_valid := bool_decide (t ∈ valid);
                vt_results_dir := "/cache/" +:+ t |}) <$> targets |}.

(** The summaries a previous run left behind. *)
Definition demo_files : gmap string file :=
  {[ "/cache/A/summary.json" := JsonDoc (demo_summary "a.analysis");
     "/cache/B/summary.json" := JsonDoc (demo_summary "b.analysis") ]}.

(** A world in which target A has been merged already. *)
Definition demo_world_after_A : World :=
  {| products :=
       {| required_data_products := ["classes_by_source"; "product_deps_by_src"];
          zinc_analysis := demo_zinc_analysis;
          classes_by_source :=
            Some {[ "Shared.scala" := [("/out/A", "/out/A/Shared.class")];
                    "A.scala" := [("/out/A", "/out/A/A.class")] ]};
          product_deps_by_src := Some {[ "A" := []; "B" := [("stale", [])] ]} |};
     fs := demo_files;
     trace := [] |}.

Definition demo_world (required : list string) (files : gmap string file) : World :=
  {| products := {| required_data_products := required;
                    zinc_analysis := demo_zinc_analysis;
                    classes_by_source := None;
                    product_deps_by_src := None |};
     fs := files;
     trace := [] |}.

(** Summaries that lack a section. *)
Definition demo_doc_no_products : SummaryJson :=
  {| sj_products := None; sj_dependencies := Some [("/out/A/A.class", [])] |}.

Definition demo_doc_no_dependencies : SummaryJson :=
  {| sj_products := Some [("/root/A.scala", ["/out/A/A.class"])];
     sj_dependencies := None |}.

(** A world whose two maps exist and are empty. *)
Definition demo_world_ready (files : gmap string file) : World :=
  {| products := {| required_data_products := ["classes_by_source"; "product_deps_by_src"];
                    zinc_analysis := demo_zinc_analysis;
                    classes_by_source := Some ∅;
                    product_deps_by_src := Some ∅ |};
     fs := files;
     trace := [] |}.

Definition both_kinds : list string := ["classes_by_source"; "product_deps_by_src"].

Definition demo_graph : BuildGraph :=
  {[ "common/b" := ["common/a"]; "common/c" := ["common/a"; "common/b"] ]}.

Definition loop_graph : BuildGraph :=
  {[ "x" := ["y"]; "y" := ["z"]; "z" := ["x"] ]}.

(** ** Theorems about the sorter *)

Example sort_demo :
  sort_targets demo_graph ["common/a"; "common/c"; "common/b"]
  = Done ["common/c"; "common/b"; "common/a"].
Proof. vm_compute. reflexivity. Qed.

Example sort_loop : ∃ c, sort_targets loop_graph ["w"; "x"] = CycleError c.
Proof. eexists. vm_compute. reflexivity. Qed.

Section sorter_facts.
Context (g : BuildGraph).
Implicit Types (t d x : Target) (path ordered ts : list Target).

(** *** What a completed walk has built *)

Lemma dependents_first_closed ordered x d :
  dependents_first g ordered → x ∈ ordered → edge g x d → d ∈ ordered.
Proof.
  induction ordered as [|a l IH]; simpl.
  - intros _ Hx. by apply elem_of_nil in Hx.
  - intros [Ha Hl] Hx Hd. apply elem_of_cons in Hx as [->|Hx].
    + right. by apply Ha.
    + right. by apply IH.
Qed.

Lemma dependents_first_reach ordered x y :
  dependents_first g ordered → x ∈ ordered → rtc (edge g) x y → y ∈ ordered.
Proof.
  intros Hdf Hx Hr. induction Hr as [|x d y Hd _ IH]; [done|].
  apply IH. by eapply dependents_first_closed.
Qed.

Lemma dependents_first_acyclic ordered x :
  dependents_first g ordered → x ∈ ordered → ¬ tc (edge g) x x.
Proof.
  induction ordered as [|a l IH]; simpl.
  - intros _ Hx. by apply elem_of_nil in Hx.
  - intros [Ha Hl] Hx Hcyc.
    destruct (decide (x ∈ l)) as [Hin|Hnin]; [by apply (IH Hl Hin)|].
    apply elem_of_cons in Hx as [->|Hx]; [|done].
    inversion Hcyc as [? ? Hd|? d ? Hd Hrest]; subst.
    + by apply Hnin, Ha.
    + apply Hnin. eapply dependents_first_reach; [done|by apply Ha|].
      by apply tc_rtc.
Qed.

(** In a list built dependents-first, a dependency is never ahead of a
    target that needs it. *)
Lemma dependents_first_split ordered l1 x l2 d :
  dependents_first g ordered → ordered = l1 ++ x :: l2 → edge g x d → d ∈ l2.
Proof.
  revert ordered. induction l1 as [|a l1 IH]; intros ordered Hdf ->; simpl in *.
  - by apply Hdf.
  - destruct Hdf as [_ Hdf]. by eapply IH.
Qed.

Lemma visit_each_Done (f : Target → list Target → outcome (list Target))
    (I : list Target → Prop) ts :
  (∀ t o o', t ∈ ts → I o → f t o = Done o' →
             I o' ∧ t ∈ o' ∧ o ⊆ o') →
  ∀ o o', I o → visit_each f ts o = Done o' →
          I o' ∧ (∀ t, t ∈ ts → t ∈ o') ∧ o ⊆ o'.
Proof.
  induction ts as [|t ts IH]; intros Hf o o' HI; simpl.
  - intros [= <-]. split_and!; [done| |done]. intros t Ht. by apply elem_of_nil in Ht.
  - destruct (f t o) as [o1| |] eqn:E; [|done..]. intros Hrest.
    destruct (Hf t o o1) as (HI1 & Ht1 & Hsub1); [left|done|done|].
    destruct (IH (λ t0 a b Ht0, Hf t0 a b (list_elem_of_further _ _ _ Ht0)) o1 o' HI1 Hrest)
      as (HI' & Hall & Hsub').
    split_and!; [done| |by intros z Hz; apply Hsub', Hsub1].
    intros t0 [->|Ht0]%elem_of_cons; [by apply Hsub'|by apply Hall].
Qed.

Lemma visit_Done fuel : ∀ path t o o',
  dependents_first g o → visit g fuel path t o = Done o' →
  dependents_first g o' ∧ t ∈ o' ∧ o ⊆ o'.
Proof.
  induction fuel as [|n IH]; intros path t o o' Hdf; simpl; [done|].
  destruct (decide (t ∈ path)); [done|].
  destruct (decide (t ∈ o)) as [Hin|Hnin].
  - intros [= <-]. done.
  - destruct (visit_each _ _ o) as [o1| |] eqn:E; [|done..].
    intros [= <-].
    destruct (visit_each_Done (visit g n (t :: path)) (dependents_first g)
                (dependencies g t)) with (o := o) (o' := o1)
      as (Hdf1 & Hall & Hsub); [|done|done|].
    { intros t0 a b _ Ha Hv. by eapply IH. }
    split_and!; [|left|by intros z Hz; right; apply Hsub].
    simpl. split; [|done]. intros d Hd. by apply Hall.
Qed.

Lemma sort_targets_Done targets l :
  sort_targets g targets = Done l →
  dependents_first g l ∧ ∀ t, t ∈ targets → t ∈ l.
Proof.
  unfold sort_targets. intros H.
  destruct (visit_each_Done (visit g (S (size g)) []) (dependents_first g) targets)
    with (o := @nil Target) (o' := l) as (Hdf & Hall & _); [|done|done|done].
  intros t a b _ Ha Hv. by eapply visit_Done.
Qed.

(** *** The recursion budget is never exhausted *)

Lemma path_length_bound path :
  NoDup path → (∀ p, p ∈ path → p ∈ dom g) → length path ≤ size g.
Proof.
  intros Hnd Hdom. rewrite <- size_dom, <- (size_list_to_set (C := gset Target) path Hnd).
  apply subseteq_size. intros p Hp. apply elem_of_list_to_set in Hp. by apply Hdom.
Qed.

Lemma edge_dom x d : edge g x d → x ∈ dom g.
Proof.
  unfold edge, dependencies. intros H. apply elem_of_dom.
  destruct (g !! x); [done|]. by apply elem_of_nil in H.
Qed.

Lemma visit_each_fuel (f : Target → list Target → outcome (list Target)) ts :
  (∀ t o, t ∈ ts → f t o ≠ OutOfFuel) → ∀ o, visit_each f ts o ≠ OutOfFuel.
Proof.
  induction ts as [|t ts IH]; intros Hf o; simpl; [done|].
  destruct (f t o) eqn:E; [|done|].
  - apply IH. intros t0 o0 Ht0. apply Hf. by right.
  - exfalso. eapply Hf; [|done]. left.
Qed.

Lemma visit_fuel fuel : ∀ path t o,
  NoDup path → (∀ p, p ∈ path → p ∈ dom g) → size g < fuel + length path →
  visit g fuel path t o ≠ OutOfFuel.
Proof.
  induction fuel as [|n IH]; intros path t o Hnd Hdom Hlt; simpl.
  - pose proof (path_length_bound path Hnd Hdom). simpl in Hlt. lia.
  - destruct (decide (t ∈ path)); [done|].
    destruct (decide (t ∈ o)); [done|].
    destruct (visit_each _ _ o) eqn:E; [done|done|].
    exfalso. revert E. apply visit_each_fuel. intros d o0 Hd.
    apply IH.
    + by constructor.
    + intros p [->|Hp]%elem_of_cons; [by eapply edge_dom|by apply Hdom].
    + simpl. lia.
Qed.

Lemma sort_targets_total targets : sort_targets g targets ≠ OutOfFuel.
Proof.
  unfold sort_targets. apply visit_each_fuel. intros t o _.
  apply visit_fuel; [constructor| |simpl; lia].
  intros p Hp. by apply elem_of_nil in Hp.
Qed.

(** *** A reported cycle is a real one *)

Lemma linked_tc path t p : linked g path t → p ∈ path → tc (edge g) p t.
Proof.
  revert t. induction path as [|q path IH]; intros t; simpl.
  - intros _ Hp. by apply elem_of_nil in Hp.
  - intros [Hq Hl] [->|Hp]%elem_of_cons.
    + by apply tc_once.
    + eapply tc_r; [|done]. by apply IH.
Qed.

Lemma visit_each_Cycle (f : Target → list Target → outcome (list Target))
    (Q : Target → Prop) ts :
  (∀ t o c, t ∈ ts → f t o = CycleError c → Q t) →
  ∀ o c, visit_each f ts o = CycleError c → ∃ t, t ∈ ts ∧ Q t.
Proof.
  induction ts as [|t ts IH]; intros Hf o c; simpl; [done|].
  destruct (f t o) as [o1|c1|] eqn:E; [| |done].
  - intros Hrest. destruct (IH (λ t0 a b Ht0, Hf t0 a b (list_elem_of_further _ _ _ Ht0)) o1 c Hrest)
      as (t0 & Ht0 & HQ).
    exists t0. split; [by right|done].
  - intros _. exists t. split; [left|]. by eapply Hf; [left|].
Qed.

Lemma visit_Cycle fuel : ∀ path t o c,
  linked g path t → visit g fuel path t o = CycleError c →
  ∃ x, rtc (edge g) t x ∧ tc (edge g) x x.
Proof.
  induction fuel as [|n IH]; intros path t o c Hl; simpl; [done|].
  destruct (decide (t ∈ path)) as [Hin|Hnin].
  - intros _. exists t. split; [done|]. by eapply linked_tc.
  - destruct (decide (t ∈ o)); [done|].
    destruct (visit_each _ _ o) as [|c1|] eqn:E; [done| |done].
    intros _.
    destruct (visit_each_Cycle (visit g n (t :: path))
                (λ d, ∃ x, rtc (edge g) d x ∧ tc (edge g) x x)
                (dependencies g t)) with (o := o) (c := c1)
      as (d & Hd & x & Hdx & Hxx); [|done|].
    { intros d a b Hd Hv. eapply IH; [|done]. simpl. done. }
    exists x. split; [|done]. by eapply rtc_l.
Qed.

Lemma sort_targets_Cycle targets c :
  sort_targets g targets = CycleError c → cyclic_reachable g targets.
Proof.
  unfold sort_targets. intros H.
  destruct (visit_each_Cycle (visit g (S (size g)) [])
              (λ r, ∃ x, rtc (edge g) r x ∧ tc (edge g) x x) targets)
    with (o := @nil Target) (c := c) as (r & Hr & x & Hrx & Hxx); [|done|].
  { intros t a b _ Hv. eapply (visit_Cycle _ [] t a b); [exact I|exact Hv]. }
  by exists r, x.
Qed.

Lemma sort_targets_complete targets l :
  sort_targets g targets = Done l → ¬ cyclic_reachable g targets.
Proof.
  intros [Hdf Hall]%sort_targets_Done (r & x & Hr & Hrx & Hxx).
  eapply dependents_first_acyclic; [done| |done].
  eapply dependents_first_reach; [done|by apply Hall|done].
Qed.

End sorter_facts.

Lemma rev_is_reverse {A} (l : list A) : rev l = reverse l.
Proof. unfold reverse. by rewrite <- rev_alt. Qed.

Lemma filter_rev {A} (P : A → Prop) `{!∀ x, Decision (P x)} (l : list A) :
  filter P (rev l) = rev (filter P l).
Proof. rewrite !rev_is_reverse. apply filter_reverse. Qed.

Lemma fmap_rev {A B} (f : A → B) (l : list A) : f <$> rev l = rev (f <$> l).
Proof. rewrite !rev_is_reverse. apply fmap_reverse. Qed.

(** On a graph without a reachable cycle the sorter returns a sequence. *)
Lemma sort_targets_acyclic g targets :
  ¬ cyclic_reachable g targets → ∃ l, sort_targets g targets = Done l.
Proof.
  intros Hac. destruct (sort_targets g targets) as [l|c|] eqn:E.
  - by exists l.
  - destruct Hac. by eapply sort_targets_Cycle.
  - by destruct (sort_targets_total g targets).
Qed.

(** The sorter's own order: whatever follows a target's position includes
    all of its direct dependencies (dependents come first). *)
Lemma sort_targets_dependents_first g targets l l1 t l2 d :
  sort_targets g targets = Done l → l = l1 ++ t :: l2 → edge g t d → d ∈ l2.
Proof.
  intros [Hdf _]%sort_targets_Done Hl Hd. by eapply dependents_first_split.
Qed.

Lemma filter_split {A} (P : A → Prop) `{!∀ x, Decision (P x)} (l : list A) :
  ∀ l1 x l2, filter P l = l1 ++ x :: l2 →
  ∃ k1 k2, l = k1 ++ x :: k2 ∧ filter P k2 = l2.
Proof.
  induction l as [|a l IH]; intros l1 x l2 Hf.
  - by destruct l1.
  - destruct (decide (P a)) as [Ha|Ha].
    + rewrite filter_cons_True in Hf by done. destruct l1 as [|b l1].
      * injection Hf as -> Hf. by exists [], l.
      * injection Hf as -> Hf. destruct (IH _ _ _ Hf) as (k1 & k2 & -> & Hk).
        by exists (b :: k1), k2.
    + rewrite filter_cons_False in Hf by done.
      destruct (IH _ _ _ Hf) as (k1 & k2 & -> & Hk). by exists (a :: k1), k2.
Qed.

(** With [reverse=true], whatever the graph: a listed target is followed,
    not preceded, by each of its direct dependencies among the roots. *)
Lemma console_output_reverse_true_order g target_roots targets out l1 t l2 d :
  console_output g true target_roots targets = Done out →
  out = l1 ++ t :: l2 → edge g t d → d ∈ target_roots → d ∈ l2.
Proof.
  unfold console_output. destruct (sort_targets g targets) as [l| |] eqn:E; [|done..].
  simpl. intros [= <-] Hout Hd Hroot. unfold address_reference in Hout.
  rewrite list_fmap_id in Hout.
  apply filter_split in Hout as (k1 & k2 & Hl & <-).
  apply list_elem_of_filter. split; [done|].
  by eapply sort_targets_dependents_first.
Qed.

(** C7: with [reverse=true] the listing is the sorter's own order, and in it
    a dependency comes after the target that needs it, not before: for
    [common/c] depending on [common/a] and [common/b], and [common/b] on
    [common/a], the output is c, b, a.  Dependencies come first in the
    output for [reverse=false]. *)
Theorem console_output_reverse_true_dependencies_last :
  edge demo_graph "common/b" "common/a"
  ∧ console_output demo_graph true
      ["common/a"; "common/b"; "common/c"] ["common/a"; "common/c"; "common/b"]
    = Done ["common/c"; "common/b"; "common/a"]
  ∧ console_output demo_graph false
      ["common/a"; "common/b"; "common/c"] ["common/a"; "common/c"; "common/b"]
    = Done ["common/a"; "common/b"; "common/c"].
Proof.
  split; [|split].
  - apply (bool_decide_unpack _). vm_compute. exact I.
  - vm_compute. reflexivity.
  - vm_compute. reflexivity.
Qed.

(** C8: on a graph with no cycle reachable from the targets, both settings
    of [reverse] produce a sequence, the one for [reverse=false] is exactly
    the reversal of the one for [reverse=true], and so a permutation of it. *)
Theorem console_output_forward_is_reversal g target_roots targets :
  ¬ cyclic_reachable g targets →
  ∃ out, console_output g true target_roots targets = Done out
       ∧ console_output g false target_roots targets = Done (rev out)
       ∧ rev out ≡ₚ out.
Proof.
  intros [l Hl]%sort_targets_acyclic. unfold console_output. rewrite Hl. simpl.
  eexists. split; [reflexivity|]. split.
  - by rewrite filter_rev, fmap_rev.
  - rewrite rev_is_reverse. apply reverse_Permutation.
Qed.

Lemma console_output_forward_is_reversal_witness :
  ∃ out, console_output demo_graph true ["common/a"; "common/c"]
           ["common/a"; "common/c"; "common/b"] = Done out
       ∧ console_output demo_graph false ["common/a"; "common/c"]
           ["common/a"; "common/c"; "common/b"] = Done (rev out)
       ∧ rev out ≡ₚ out.
Proof.
  apply (console_output_forward_is_reversal demo_graph).
  apply (sort_targets_complete demo_graph _ ["common/c"; "common/b"; "common/a"]).
  vm_compute. reflexivity.
Defined.

(** C9: when a cycle is reachable from the targets handed to the sorter, the
    sort ends in [CycleError] and so does the task, whatever the [reverse]
    setting and the roots: no sequence, partial or not, is returned. *)
Theorem console_output_cycle_error g reverse target_roots targets :
  cyclic_reachable g targets →
  ∃ c, sort_targets g targets = CycleError c
     ∧ console_output g reverse target_roots targets = CycleError c.
Proof.
  intros Hcyc. unfold console_output.
  destruct (sort_targets g targets) as [l|c|] eqn:E.
  - by destruct (sort_targets_complete g targets l E).
  - by exists c.
  - by destruct (sort_targets_total g targets).
Qed.

Lemma console_output_cycle_error_witness :
  ∃ c, sort_targets loop_graph ["w"; "x"] = CycleError c
     ∧ console_output loop_graph true ["w"] ["w"; "x"] = CycleError c.
Proof.
  apply (console_output_cycle_error loop_graph true ["w"] ["w"; "x"]).
  exists "x", "x". split; [|split].
  - apply (bool_decide_unpack _). vm_compute. exact I.
  - apply rtc_refl.
  - apply (tc_l _ _ "y"); [|apply (tc_l _ _ "z"); [|apply tc_once]];
      apply (bool_decide_unpack _); vm_compute; exact I.
Defined.

(** ** Theorems about the extraction task *)

Example demo_run_first :
  let '(w, r) := execute (demo_env 0 []) (demo_world both_kinds ∅) in
  r = inr tt
  ∧ length (filter is_RunJava (trace w)) = 2
  ∧ (classes_by_source (products w) ≫= (.!! "Shared.scala"))
    = Some [("/out/A", "/out/A/Shared.class"); ("/out/B", "/out/B/Shared.class")]
  ∧ (product_deps_by_src (products w) ≫= (.!! "B"))
    = Some [("/out/B/B.class", ["/out/A/A.class"])].
Proof. vm_compute. done. Qed.

(** *** Reasoning about the state-and-exception monad *)

Lemma bind_inr {A B} (m : M A) (k : A → M B) w w' b :
  (m ≫= k) w = (w', inr b) → ∃ a w1, m w = (w1, inr a) ∧ k a w1 = (w', inr b).
Proof.
  unfold mbind, M_bind. destruct (m w) as [w1 [e|a]]; [done|]. eauto.
Qed.

Lemma bind_step {A B} (m : M A) (k : A → M B) w w1 a :
  m w = (w1, inr a) → (m ≫= k) w = k a w1.
Proof. unfold mbind, M_bind. by intros ->. Qed.

Lemma preserves_bind {A B X} (f : World → X) (m : M A) (k : A → M B) :
  preserves f m → (∀ a, preserves f (k a)) → preserves f (m ≫= k).
Proof.
  intros Hm Hk w. unfold mbind, M_bind. specialize (Hm w).
  destruct (m w) as [w1 [e|a]]; simpl in *; [done|].
  by rewrite Hk.
Qed.

Lemma preserves_for_each {A X} (f : World → X) (l : list A) (body : A → M unit) :
  (∀ x, preserves f (body x)) → preserves f (for_each l body).
Proof.
  intros Hb. induction l as [|x l IH]; simpl; [done|].
  apply preserves_bind; [apply Hb|done].
Qed.

Ltac frame :=
  repeat first
    [ apply preserves_bind; [|intros ?]
    | apply preserves_for_each; intros ?
    | match goal with
      | |- preserves _ (match ?x with _ => _ end) => destruct x
      | |- preserves _ (let '(_, _) := ?x in _) => destruct x
      end
    | solve [intros ?; reflexivity] ].

Lemma tool_effect_preserves {X} (f : World → X) env args :
  (∀ w fs', f {| products := products w; fs := fs'; trace := trace w |} = f w) →
  preserves f (tool_effect env args).
Proof.
  intros Hf w. unfold tool_effect. destruct (runjava env args (fs w)). apply Hf.
Qed.

Lemma json_load_preserves {X} (f : World → X) path : preserves f (json_load path).
Proof. intros w. unfold json_load. by destruct (fs w !! path) as [[]|]. Qed.

Lemma load_global_preserves {A X} (f : World → X) name (k : M A) :
  preserves f k → preserves f (load_global name k).
Proof. intros Hk. unfold load_global. by case_decide. Qed.

Lemma extract_analysis_preserves {X} (f : World → X) env target af sf :
  (∀ w fs' tr', f {| products := products w; fs := fs'; trace := tr' |} = f w) →
  preserves f (_extract_analysis env target af sf).
Proof.
  intros Hf. unfold _extract_analysis, do_runjava. frame.
  - intros w. apply Hf.
  - apply tool_effect_preserves. intros w fs'. apply Hf.
Qed.

Ltac frame_task :=
  repeat first
    [ apply preserves_bind; [|intros ?]
    | apply preserves_for_each; intros ?
    | apply json_load_preserves
    | apply extract_analysis_preserves; intros; reflexivity
    | match goal with
      | |- preserves _ (match ?x with _ => _ end) => destruct x
      | |- preserves _ (let '(_, _) := ?x in _) => destruct x
      end
    | solve [intros ?; reflexivity] ].

Lemma register_products_preserves {X} (f : World → X) env target cp path cbs pds :
  (∀ w tr', f {| products := products w; fs := fs w; trace := tr' |} = f w) →
  (∀ w v, f {| products :=
                 {| required_data_products := required_data_products (products w);
                    zinc_analysis := zinc_analysis (products w);
                    classes_by_source := v;
                    product_deps_by_src := product_deps_by_src (products w) |};
               fs := fs w; trace := trace w |} = f w) →
  (∀ w v, f {| products :=
                 {| required_data_products := required_data_products (products w);
                    zinc_analysis := zinc_analysis (products w);
                    classes_by_source := classes_by_source (products w);
                    product_deps_by_src := v |};
               fs := fs w; trace := trace w |} = f w) →
  preserves f (_register_products env target cp path cbs pds).
Proof.
  intros Htr Hcbs Hpds.
  unfold _register_products, _parse_summary_json, classes_by_source_add,
    product_deps_by_src_set.
  frame_task; try (intros w; first [apply Htr|apply Hcbs|apply Hpds]).
Qed.

(** *** The upstream analysis resolver *)

Lemma upstream_analysis_elem target_classpath (m : gmap string string) entry analysis_file :
  (entry, analysis_file) ∈ _upstream_analysis target_classpath m
  ↔ entry ∈ target_classpath ∧ m !! entry = Some analysis_file.
Proof.
  induction target_classpath as [|e rest IH]; simpl.
  - split; [intros H|intros [H _]]; by apply elem_of_nil in H.
  - destruct (m !! e) as [a|] eqn:E.
    + rewrite !elem_of_cons, IH. split.
      * intros [[= -> ->]|[? ?]]; [split; [by left|done]|split; [by right|done]].
      * intros [[->|?] Hm]; [left; congruence|by right].
    + rewrite elem_of_cons, IH. split.
      * intros [? ?]. split; [by right|done].
      * intros [[->|?] Hm]; [congruence|done].
Qed.

Lemma upstream_analysis_order target_classpath (m : gmap string string) :
  (_upstream_analysis target_classpath m).*1
  = filter (λ entry, is_Some (m !! entry)) target_classpath.
Proof.
  induction target_classpath as [|e rest IH]; [done|].
  cbn [_upstream_analysis]. destruct (m !! e) as [a|] eqn:E.
  - rewrite fmap_cons, filter_cons_True by (by rewrite E). cbn [fst]. by f_equal.
  - rewrite filter_cons_False; [done|]. rewrite E. by intros [? ?].
Qed.

(** C2: the resolver yields exactly the pairs [(entry, artifact)] whose
    entry is on the classpath and has an artifact in the map, in classpath
    order; entries without an artifact are left out, and no error can arise
    (the resolver is a total function).  The pairs are what
    [_extract_analysis] passes to the tool after [-analysis-map]. *)
Theorem upstream_analysis_exact env target_classpath (m : gmap string string)
    target analysis_file summary_json_file :
  (∀ entry artifact,
     (entry, artifact) ∈ _upstream_analysis target_classpath m
     ↔ entry ∈ target_classpath ∧ m !! entry = Some artifact)
  ∧ (_upstream_analysis target_classpath m).*1
    = filter (λ entry, is_Some (m !! entry)) target_classpath
  ∧ (∀ entry, m !! entry = None →
       entry ∉ (_upstream_analysis target_classpath m).*1)
  ∧ extractor_args env m target analysis_file summary_json_file !! 7
    = Some (String.concat ","
              ((λ '(k, v), k +:+ ":" +:+ v)
                 <$> _upstream_analysis (compile_classpath env target) m)).
Proof.
  split_and!.
  - intros entry artifact. apply upstream_analysis_elem.
  - apply upstream_analysis_order.
  - intros entry Hnone. rewrite upstream_analysis_order, list_elem_of_filter.
    rewrite Hnone. by intros [[? ?] _].
  - reflexivity.
Qed.

Example upstream_analysis_scenario :
  _upstream_analysis ["libX.jar"; "libA.jar"] {[ "libA.jar" := "a.analysis" ]}
  = [("libA.jar", "a.analysis")].
Proof. vm_compute. reflexivity. Qed.

(** *** The short circuit *)

(** C5: when neither product kind is required, [execute] returns at once
    and the world is exactly what it was: no map is created, the file
    system is unchanged and nothing was run or read. *)
Theorem execute_not_required_noop env w :
  "classes_by_source" ∉ the_required w →
  "product_deps_by_src" ∉ the_required w →
  execute env w = (w, inr tt).
Proof.
  unfold the_required. intros H1 H2.
  unfold execute, _create_products_if_should_run, is_required_data, get_products,
    mbind, M_bind, mret, M_ret. simpl.
  rewrite !bool_decide_eq_false_2 by done. reflexivity.
Qed.

Lemma execute_not_required_noop_witness :
  execute (demo_env 0 []) (demo_world ["list"] ∅)
  = (demo_world ["list"] ∅, inr tt).
Proof.
  apply (execute_not_required_noop (demo_env 0 []) (demo_world ["list"] ∅)).
  - apply (bool_decide_unpack _). vm_compute. exact I.
  - apply (bool_decide_unpack _). vm_compute. exact I.
Defined.

(** *** Merging one summary *)

Lemma contribution_cons env cp a classes items source :
  contribution env cp ((a, classes) :: items) source
  = (if decide (relpath env a (get_buildroot env) = source)
     then (λ p, (cp, p)) <$> classes else [])
    ++ contribution env cp items source.
Proof.
  unfold contribution. case_decide as Hs.
  - by rewrite filter_cons_True.
  - by rewrite filter_cons_False.
Qed.

Lemma merge_products_lookup env cp items : ∀ (m : gmap string MultipleRootedProducts) source,
  default [] (merge_products env cp items m !! source)
  = default [] (m !! source) ++ contribution env cp items source.
Proof.
  induction items as [|[a classes] items IH]; intros m source.
  - unfold contribution. simpl. by rewrite app_nil_r.
  - unfold merge_products in *. cbn [foldl]. rewrite IH, contribution_cons.
    case_decide as Hs.
    + rewrite Hs, lookup_insert_eq. unfold add_abs_paths. simpl. by rewrite app_assoc.
    + rewrite lookup_insert_ne by done. done.
Qed.

Lemma merge_products_keeps env cp items : ∀ (m : gmap string MultipleRootedProducts) source,
  is_Some (m !! source) → is_Some (merge_products env cp items m !! source).
Proof.
  induction items as [|[a classes] items IH]; intros m source Hs; [done|].
  unfold merge_products in *. cbn [foldl]. apply IH.
  rewrite lookup_insert. case_decide; [by eexists|done].
Qed.

Lemma classes_by_source_loop env cp items : ∀ w,
  (for_each items (λ '(abs_src, classes),
     classes_by_source_add Ref (relpath env abs_src (get_buildroot env)) cp classes) w).2
  = inr tt
  ∧ the_classes_by_source
      (for_each items (λ '(abs_src, classes),
         classes_by_source_add Ref (relpath env abs_src (get_buildroot env)) cp classes) w).1
    = merge_products env cp items <$> the_classes_by_source w.
Proof.
  unfold the_classes_by_source.
  induction items as [|[a classes] items IH]; intros w.
  - simpl. split; [done|]. by destruct (classes_by_source (products w)).
  - cbn [for_each]. unfold mbind, M_bind.
    destruct (classes_by_source_add Ref (relpath env a (get_buildroot env)) cp classes w)
      as [w1 r1] eqn:E1.
    unfold classes_by_source_add, set_classes_by_source, get_products, mbind, M_bind in E1.
    injection E1 as <- <-.
    destruct (IH ({|
      products := {|
        required_data_products := required_data_products (products w);
        zinc_analysis := zinc_analysis (products w);
        classes_by_source :=
          (λ m, <[relpath env a (get_buildroot env) :=
                    add_abs_paths (default [] (m !! relpath env a (get_buildroot env)))
                      cp classes]> m) <$> classes_by_source (products w);
        product_deps_by_src := product_deps_by_src (products w) |};
      fs := fs w; trace := trace w |})) as [IH1 IH2].
    split; [exact IH1|]. rewrite IH2. simpl.
    by destruct (classes_by_source (products w)).
Qed.

Lemma register_products_classes env target cp f pds w doc items :
  fs w !! f = Some (JsonDoc doc) →
  sj_products doc = Some items →
  the_classes_by_source (_register_products env target cp f (Some Ref) pds w).1
  = merge_products env cp items <$> the_classes_by_source w.
Proof.
  intros Hf Hitems.
  unfold _register_products, _parse_summary_json, emit, json_load.
  unfold mbind at 1 2 3, M_bind at 1 2 3. simpl. rewrite Hf, Hitems.
  match goal with |- context [for_each items ?b ?w0] =>
    destruct (classes_by_source_loop env cp items w0) as [Hr Hc];
    destruct (for_each items b w0) as [w1 r1] eqn:E1 end.
  simpl in Hr, Hc. subst r1.
  assert (preserves the_classes_by_source
    (match pds with
     | Some product_deps_by_src =>
         match sj_dependencies doc with
         | Some deps => product_deps_by_src_set product_deps_by_src target deps
         | None => raise (KeyError "dependencies")
         end
     | None => mret tt
     end)) as Hp by frame.
  rewrite Hp. exact Hc.
Qed.

(** C3: with the per-source map requested, merging a summary adds, for every
    source key, the outputs of every item whose source path (made relative
    to the build root) is that key, tagged with the target's classpath
    entry, after whatever the key already held; what earlier targets
    contributed stays, and keys are never dropped. *)
Theorem register_products_additive env target cp summary_json_file pds w doc items
    (m : gmap string MultipleRootedProducts) :
  fs w !! summary_json_file = Some (JsonDoc doc) →
  sj_products doc = Some items →
  the_classes_by_source w = Some m →
  ∃ m' : gmap string MultipleRootedProducts,
    the_classes_by_source
      (_register_products env target cp summary_json_file (Some Ref) pds w).1 = Some m'
    ∧ (∀ source,
         default [] (m' !! source)
         = default [] (m !! source) ++ contribution env cp items source)
    ∧ (∀ abs_src classes c,
         (abs_src, classes) ∈ items → c ∈ classes →
         (cp, c) ∈ default [] (m' !! relpath env abs_src (get_buildroot env)))
    ∧ (∀ source earlier,
         earlier ∈ default [] (m !! source) → earlier ∈ default [] (m' !! source))
    ∧ (∀ source, is_Some (m !! source) → is_Some (m' !! source)).
Proof.
  intros Hf Hitems Hm.
  exists (merge_products env cp items m).
  rewrite (register_products_classes env target cp summary_json_file pds w doc items Hf Hitems).
  rewrite Hm. split_and!.
  - done.
  - intros source. apply merge_products_lookup.
  - intros abs_src classes c Hitem Hc. rewrite merge_products_lookup.
    apply elem_of_app. right. unfold contribution.
    apply list_elem_of_In, in_flat_map. exists (abs_src, classes). split.
    + apply list_elem_of_In, list_elem_of_filter. done.
    + apply list_elem_of_In, list_elem_of_fmap. by exists c.
  - intros source earlier He. rewrite merge_products_lookup.
    apply elem_of_app. by left.
  - intros source. apply merge_products_keeps.
Qed.

Lemma register_products_additive_witness :
  ∃ m' : gmap string MultipleRootedProducts,
    the_classes_by_source
      (_register_products (demo_env 0 []) "B" "/out/B" "/cache/B/summary.json"
         (Some Ref) (Some Ref) demo_world_after_A).1 = Some m'
    ∧ default [] (m' !! "Shared.scala")
      = [("/out/A", "/out/A/Shared.class"); ("/out/B", "/out/B/Shared.class")]
    ∧ default [] (m' !! "A.scala") = [("/out/A", "/out/A/A.class")]
    ∧ default [] (m' !! "B.scala") = [("/out/B", "/out/B/B.class")].
Proof.
  destruct (register_products_additive (demo_env 0 []) "B" "/out/B"
              "/cache/B/summary.json" (Some Ref) demo_world_after_A
              (demo_summary "b.analysis")
              [("/root/Shared.scala", ["/out/B/Shared.class"]);
               ("/root/B.scala", ["/out/B/B.class"])]
              {[ "Shared.scala" := [("/out/A", "/out/A/Shared.class")];
                 "A.scala" := [("/out/A", "/out/A/A.class")] ]})
    as (m' & Hm' & Hlook & _).
  - vm_compute. reflexivity.
  - vm_compute. reflexivity.
  - reflexivity.
  - exists m'. split; [exact Hm'|]. rewrite !Hlook. vm_compute. done.
Defined.

Lemma parse_summary_json_ok f w doc :
  fs w !! f = Some (JsonDoc doc) →
  _parse_summary_json f w
  = ({| products := products w; fs := fs w; trace := trace w ++ [OpenRead f] |}, inr doc).
Proof.
  intros Hf. unfold _parse_summary_json, emit, json_load, mbind, M_bind. simpl.
  by rewrite Hf.
Qed.

Lemma register_products_deps env target cp f cbs w doc deps :
  fs w !! f = Some (JsonDoc doc) →
  sj_dependencies doc = Some deps →
  (cbs = None ∨ is_Some (sj_products doc)) →
  ∃ w', _register_products env target cp f cbs (Some Ref) w = (w', inr tt)
      ∧ the_product_deps_by_src w'
        = (λ m, <[target := deps]> m) <$> the_product_deps_by_src w.
Proof.
  intros Hf Hdeps Hcbs. unfold _register_products.
  rewrite (bind_step _ _ _ _ _ (parse_summary_json_ok f w doc Hf)). rewrite Hdeps.
  destruct cbs as [[]|].
  - destruct Hcbs as [|[items Hitems]]; [done|]. rewrite Hitems.
    match goal with |- context [for_each items ?b ≫= _] =>
      match goal with |- context [_ ?w0 = _] =>
        destruct (classes_by_source_loop env cp items w0) as [Hr _];
        pose proof (preserves_for_each the_product_deps_by_src items b
                      (ltac:(intros [??]; frame)) w0) as Hp;
        destruct (for_each items b w0) as [w1 r1] eqn:E1
      end
    end.
    simpl in Hr, Hp. subst r1. rewrite (bind_step _ _ _ _ _ E1).
    eexists. split; [reflexivity|]. unfold the_product_deps_by_src in *. simpl.
    by rewrite Hp.
  - eexists. split; [reflexivity|]. done.
Qed.

(** C6: with the per-target map requested, merging a summary binds the
    target's key to the summary's dependency section as it stands, whatever
    the key held before; every other key keeps its value, so the map has one
    entry for the target (and none is added when it already had one). *)
Theorem register_products_deps_overwrite env target cp summary_json_file cbs w doc deps
    (m : gmap Target EdgeData) :
  fs w !! summary_json_file = Some (JsonDoc doc) →
  sj_dependencies doc = Some deps →
  (cbs = None ∨ is_Some (sj_products doc)) →
  the_product_deps_by_src w = Some m →
  ∃ w' (m' : gmap Target EdgeData),
    _register_products env target cp summary_json_file cbs (Some Ref) w = (w', inr tt)
    ∧ the_product_deps_by_src w' = Some m'
    ∧ m' !! target = Some deps
    ∧ (∀ other, other ≠ target → m' !! other = m !! other)
    ∧ dom m' = {[target]} ∪ dom m
    ∧ (is_Some (m !! target) → size m' = size m).
Proof.
  intros Hf Hdeps Hcbs Hm.
  destruct (register_products_deps env target cp summary_json_file cbs w doc deps Hf Hdeps Hcbs)
    as (w' & Hr & Hp).
  exists w', (<[target := deps]> m). rewrite Hp, Hm. split_and!.
  - done.
  - done.
  - apply lookup_insert_eq.
  - intros other Hne. by apply lookup_insert_ne.
  - apply dom_insert_L.
  - intros [old Hold]. rewrite <- (insert_id m target old Hold) at 2.
    rewrite <- (insert_delete_eq m target deps), <- (insert_delete_eq m target old).
    rewrite !map_size_insert_None by apply lookup_delete_eq. done.
Qed.

Lemma register_products_deps_overwrite_witness :
  ∃ w' (m' : gmap Target EdgeData),
    _register_products (demo_env 0 []) "B" "/out/B" "/cache/B/summary.json"
      (Some Ref) (Some Ref) demo_world_after_A = (w', inr tt)
    ∧ the_product_deps_by_src w' = Some m'
    ∧ m' !! "B" = Some [("/out/B/B.class", ["/out/A/A.class"])]
    ∧ (∀ other, other ≠ "B" →
         m' !! other = ({[ "A" := []; "B" := [("stale", [])] ]} : gmap Target EdgeData) !! other)
    ∧ dom m' = {[ "B" ]} ∪ dom ({[ "A" := []; "B" := [("stale", [])] ]} : gmap Target EdgeData)
    ∧ (is_Some (({[ "A" := []; "B" := [("stale", [])] ]} : gmap Target EdgeData) !! "B") →
       size m' = size ({[ "A" := []; "B" := [("stale", [])] ]} : gmap Target EdgeData)).
Proof.
  apply (register_products_deps_overwrite (demo_env 0 []) "B" "/out/B"
           "/cache/B/summary.json" (Some Ref) demo_world_after_A
           (demo_summary "b.analysis")).
  - vm_compute. reflexivity.
  - vm_compute. reflexivity.
  - right. vm_compute. by eexists.
  - reflexivity.
Defined.

(** *** One versioned target *)

Lemma TaskError_unbound : "TaskError" ∉ module_globals.
Proof. apply (bool_decide_unpack _). vm_compute. exact I. Qed.

Lemma load_global_TaskError {A} (k : M A) :
  load_global "TaskError" k = raise (NameError "TaskError").
Proof. unfold load_global. rewrite decide_False; [done|apply TaskError_unbound]. Qed.

(** What [_extract_analysis] does, by the tool's exit status. *)
Lemma extract_analysis_run env target af sf w :
  let args := extractor_args env (_analysis_by_runtime_entry (the_zinc_analysis w))
                target af sf in
  _extract_analysis env target af sf w
  = ({| products := products w; fs := (runjava env args (fs w)).2;
        trace := trace w ++ [RunJava main_class args] |},
     if decide ((runjava env args (fs w)).1 ≠ 0%Z)
     then inl (NameError "TaskError") else inr tt).
Proof.
  unfold _extract_analysis, do_runjava, emit, tool_effect, get_products, mbind, M_bind,
    the_zinc_analysis. simpl.
  destruct (runjava env _ (fs w)) as [result fs'] eqn:E. simpl.
  case_decide; [by rewrite load_global_TaskError|done].
Qed.

Lemma register_products_unfold env target cp f cbs pds :
  _register_products env target cp f cbs pds
  = _parse_summary_json f ≫= register_parsed env target cp cbs pds.
Proof. reflexivity. Qed.

Lemma register_parsed_preserves {X} (f : World → X) env target cp cbs pds doc :
  (∀ w v, f {| products :=
                 {| required_data_products := required_data_products (products w);
                    zinc_analysis := zinc_analysis (products w);
                    classes_by_source := v;
                    product_deps_by_src := product_deps_by_src (products w) |};
               fs := fs w; trace := trace w |} = f w) →
  (∀ w v, f {| products :=
                 {| required_data_products := required_data_products (products w);
                    zinc_analysis := zinc_analysis (products w);
                    classes_by_source := classes_by_source (products w);
                    product_deps_by_src := v |};
               fs := fs w; trace := trace w |} = f w) →
  preserves f (register_parsed env target cp cbs pds doc).
Proof.
  intros Hcbs Hpds.
  unfold register_parsed, classes_by_source_add, product_deps_by_src_set.
  frame_task; try (intros w; first [apply Hcbs|apply Hpds]).
Qed.

Lemma register_parsed_inr env target cp cbs pds doc w w' :
  register_parsed env target cp cbs pds doc w = (w', inr tt) →
  the_classes_by_source w'
  = match cbs with
    | Some _ => merge_products env cp (default [] (sj_products doc))
                  <$> the_classes_by_source w
    | None => the_classes_by_source w
    end
  ∧ the_product_deps_by_src w'
    = match pds with
      | Some _ => (λ m, <[target := default [] (sj_dependencies doc)]> m)
                    <$> the_product_deps_by_src w
      | None => the_product_deps_by_src w
      end.
Proof.
  unfold register_parsed. intros (u & w1 & H1 & H2)%bind_inr.
  assert (the_classes_by_source w1
          = match cbs with
            | Some _ => merge_products env cp (default [] (sj_products doc))
                          <$> the_classes_by_source w
            | None => the_classes_by_source w
            end
          ∧ the_product_deps_by_src w1 = the_product_deps_by_src w) as [Hc1 Hp1].
  { destruct cbs as [[]|].
    - destruct (sj_products doc) as [items|]; [|done]. simpl. split.
      + destruct (classes_by_source_loop env cp items w) as [_ Hc].
        by rewrite H1 in Hc.
      + pose proof (preserves_for_each the_product_deps_by_src items
          (λ '(abs_src, classes),
             classes_by_source_add Ref (relpath env abs_src (get_buildroot env)) cp classes)
          (ltac:(intros [??]; frame)) w) as Hp.
        by rewrite H1 in Hp.
    - by injection H1 as <- _. }
  rewrite <- Hc1, <- Hp1. destruct pds as [[]|].
  - destruct (sj_dependencies doc) as [deps|]; [|done].
    unfold product_deps_by_src_set, set_product_deps_by_src, get_products, mbind, M_bind in H2.
    by injection H2 as <-.
  - by injection H2 as <-.
Qed.

Lemma execute_vt_inr env za cbs pds vt w w' :
  execute_vt env za cbs pds vt w = (w', inr tt) →
  the_zinc_analysis w = za →
  is_Some (za !! vt_target vt)
  ∧ trace w' = trace w ++ vt_events env za vt
  ∧ the_zinc_analysis w' = za
  ∧ the_required w' = the_required w
  ∧ ∃ doc,
      the_classes_by_source w'
      = match cbs with
        | Some _ => (λ m, merge_classes env za m (vt, doc)) <$> the_classes_by_source w
        | None => the_classes_by_source w
        end
      ∧ the_product_deps_by_src w'
        = match pds with
          | Some _ => (λ m, merge_deps m (vt, doc)) <$> the_product_deps_by_src w
          | None => the_product_deps_by_src w
          end.
Proof.
  unfold execute_vt, vt_events, analysis_file_of, merge_classes, merge_deps, cp_entry_of.
  intros Hrun Hza.
  destruct (za !! vt_target vt) as [[[cp_entry jar] analysis_file]|] eqn:Elook; [|done].
  simpl. apply bind_inr in Hrun as (u & w1 & H1 & H2).
  assert (trace w1 = trace w ++
            (if vt_valid vt then []
             else [RunJava main_class
                     (extractor_args env (_analysis_by_runtime_entry za) (vt_target vt)
                        analysis_file (_summary_json_file vt))])
          ∧ products w1 = products w) as [Htr1 Hp1].
  { destruct (vt_valid vt); simpl in H1.
    - injection H1 as <- _. by rewrite app_nil_r.
    - rewrite extract_analysis_run, Hza in H1. by injection H1 as <- _. }
  rewrite register_products_unfold in H2.
  apply bind_inr in H2 as (doc & w2 & H2 & H3).
  assert (w2 = {| products := products w1; fs := fs w1;
                  trace := trace w1 ++ [OpenRead (_summary_json_file vt)] |}) as ->.
  { unfold _parse_summary_json, emit, json_load, mbind, M_bind in H2. simpl in H2.
    destruct (fs w1 !! _summary_json_file vt) as [[|d]|]; [done| |done].
    by injection H2 as <- _. }
  match type of H3 with _ ?w2 = _ =>
    pose proof (register_parsed_preserves trace env (vt_target vt) cp_entry cbs pds doc
                  (λ _ _, eq_refl) (λ _ _, eq_refl) w2) as Htr;
    pose proof (register_parsed_preserves the_zinc_analysis env (vt_target vt) cp_entry
                  cbs pds doc (λ _ _, eq_refl) (λ _ _, eq_refl) w2) as Hz;
    pose proof (register_parsed_preserves the_required env (vt_target vt) cp_entry
                  cbs pds doc (λ _ _, eq_refl) (λ _ _, eq_refl) w2) as Hq
  end.
  rewrite H3 in Htr, Hz, Hq. simpl in Htr, Hz, Hq.
  apply register_parsed_inr in H3 as [Hc Hp].
  unfold the_zinc_analysis, the_required, the_classes_by_source, the_product_deps_by_src in *.
  simpl in *. rewrite Hp1 in *.
  split_and!; [by eexists| |congruence|done|].
  - rewrite Htr, Htr1, <- app_assoc. done.
  - exists doc. rewrite Elook. done.
Qed.

(** *** The whole run *)

Lemma create_products_run w :
  let rc := bool_decide ("classes_by_source" ∈ the_required w) in
  let rp := bool_decide ("product_deps_by_src" ∈ the_required w) in
  ∃ w1, _create_products_if_should_run w = (w1, inr (rc || rp))
      ∧ the_classes_by_source w1 = (if rc then Some ∅ else the_classes_by_source w)
      ∧ the_product_deps_by_src w1 = (if rp then Some ∅ else the_product_deps_by_src w)
      ∧ the_zinc_analysis w1 = the_zinc_analysis w
      ∧ the_required w1 = the_required w
      ∧ fs w1 = fs w
      ∧ trace w1 = trace w.
Proof.
  unfold the_required, the_classes_by_source, the_product_deps_by_src, the_zinc_analysis.
  unfold _create_products_if_should_run, is_required_data, get_products,
    safe_create_classes_by_source, safe_create_product_deps_by_src,
    set_classes_by_source, set_product_deps_by_src, mbind, M_bind, mret, M_ret.
  simpl.
  destruct (bool_decide ("classes_by_source" ∈ required_data_products (products w)));
    simpl;
    destruct (bool_decide ("product_deps_by_src" ∈ required_data_products (products w)));
    simpl; eexists; (split; [reflexivity|]); done.
Qed.

Lemma execute_run env w w1 b :
  _create_products_if_should_run w = (w1, inr b) →
  execute env w
  = if b
    then for_each (invalidated env (map_to_list (the_zinc_analysis w1)).*1)
           (execute_vt env (the_zinc_analysis w1)
              (ref_of "classes_by_source" (the_classes_by_source w1))
              (ref_of "product_deps_by_src" (the_product_deps_by_src w1))) w1
    else (w1, inr tt).
Proof.
  intros Hc. unfold execute. rewrite (bind_step _ _ _ _ _ Hc).
  destruct b; reflexivity.
Qed.

Lemma loop_inr env za cbs pds : ∀ vts w w',
  for_each vts (execute_vt env za cbs pds) w = (w', inr tt) →
  the_zinc_analysis w = za →
  (∀ vt, vt ∈ vts → is_Some (za !! vt_target vt))
  ∧ trace w' = trace w ++ flat_map (vt_events env za) vts
  ∧ the_required w' = the_required w
  ∧ ∃ docs, length docs = length vts
      ∧ the_classes_by_source w'
        = match cbs with
          | Some _ => (λ m, foldl (merge_classes env za) m (zip vts docs))
                        <$> the_classes_by_source w
          | None => the_classes_by_source w
          end
      ∧ the_product_deps_by_src w'
        = match pds with
          | Some _ => (λ m, foldl merge_deps m (zip vts docs))
                        <$> the_product_deps_by_src w
          | None => the_product_deps_by_src w
          end.
Proof.
  induction vts as [|vt vts IH]; intros w w' Hrun Hza.
  - injection Hrun as <-. split_and!.
    + intros vt Hvt. by apply elem_of_nil in Hvt.
    + simpl. by rewrite app_nil_r.
    + done.
    + exists []. split; [done|].
      destruct cbs, pds, (the_classes_by_source w), (the_product_deps_by_src w); done.
  - cbn [for_each] in Hrun. apply bind_inr in Hrun as ([] & w1 & H1 & H2).
    apply execute_vt_inr in H1 as (Hsome & Htr1 & Hza1 & Hreq1 & doc & Hc1 & Hp1); [|done].
    apply IH in H2 as (Hall & Htr & Hreq & docs & Hlen & Hc & Hp); [|done].
    split_and!.
    + intros v [->|Hv]%elem_of_cons; [done|by apply Hall].
    + rewrite Htr, Htr1. simpl. by rewrite <- app_assoc.
    + congruence.
    + exists (doc :: docs). split; [simpl; by rewrite Hlen|].
      rewrite Hc, Hc1, Hp, Hp1. simpl.
      destruct cbs, pds, (the_classes_by_source w), (the_product_deps_by_src w); done.
Qed.

Lemma run_count env za vts :
  length (filter (λ ev, is_RunJava ev = true) (flat_map (vt_events env za) vts))
  = length (filter (λ vt, vt_valid vt = false) vts).
Proof.
  induction vts as [|vt vts IH]; [done|].
  cbn [flat_map]. rewrite filter_app, length_app, IH. unfold vt_events.
  destruct (vt_valid vt) eqn:E.
  - rewrite filter_cons_False by (by rewrite E). done.
  - rewrite filter_cons_True by done. done.
Qed.

Lemma execute_completed env w w' :
  execute env w = (w', inr tt) →
  "classes_by_source" ∈ the_required w ∨ "product_deps_by_src" ∈ the_required w →
  let za := the_zinc_analysis w in
  let all_vts := invalidated env (map_to_list za).*1 in
  trace w' = trace w ++ flat_map (vt_events env za) all_vts
  ∧ ∃ docs, length docs = length all_vts
      ∧ ("classes_by_source" ∈ the_required w →
         the_classes_by_source w'
         = Some (foldl (merge_classes env za) ∅ (zip all_vts docs)))
      ∧ ("product_deps_by_src" ∈ the_required w →
         the_product_deps_by_src w'
         = Some (foldl merge_deps ∅ (zip all_vts docs))).
Proof.
  intros Hrun Hreq za all_vts.
  destruct (create_products_run w) as (w1 & Hc & Hcbs & Hpds & Hza & Hrq & Hfs & Htr).
  rewrite (execute_run env w w1 _ Hc) in Hrun.
  rewrite orb_true_intro in Hrun.
  2:{ destruct Hreq as [H|H]; [left|right]; by apply bool_decide_eq_true. }
  rewrite Hza in Hrun. fold za all_vts in Hrun.
  apply loop_inr in Hrun as (_ & Htrace & _ & docs & Hlen & Hc' & Hp'); [|done].
  split.
  - by rewrite Htrace, Htr.
  - exists docs. split; [done|]. split.
    + intros Hin. rewrite Hc', Hcbs. by rewrite bool_decide_eq_true_2.
    + intros Hin. rewrite Hp', Hpds. by rewrite bool_decide_eq_true_2.
Qed.

Lemma merge_deps_dom : ∀ (vts : list VersionedTarget) (docs : list SummaryJson)
    (m : gmap Target EdgeData),
  length docs = length vts →
  dom (foldl merge_deps m (zip vts docs)) = dom m ∪ list_to_set (vt_target <$> vts).
Proof.
  induction vts as [|vt vts IH]; intros [|doc docs] m Hlen; try done.
  - cbn [zip zip_with foldl fmap list_fmap]. by rewrite list_to_set_nil, (right_id_L ∅ (∪)).
  - injection Hlen as Hlen. cbn [zip zip_with foldl fmap list_fmap].
    rewrite IH by done. unfold merge_deps. cbn [fst snd]. rewrite dom_insert_L.
    rewrite list_to_set_cons, (comm_L (∪) {[vt_target vt]} (dom m)).
    by rewrite (assoc_L (∪)).
Qed.

(** In a completed run that was asked for the per-target map, the map has
    an entry for every versioned target and for nothing else. *)
Lemma execute_product_deps_dom env w w' :
  execute env w = (w', inr tt) →
  "product_deps_by_src" ∈ the_required w →
  ∃ m : gmap Target EdgeData,
    the_product_deps_by_src w' = Some m
    ∧ dom m = list_to_set
                (vt_target <$> invalidated env (map_to_list (the_zinc_analysis w)).*1).
Proof.
  intros Hrun Hreq.
  destruct (execute_completed env w w' Hrun (or_intror Hreq))
    as (_ & docs & Hlen & _ & Hp).
  eexists. split; [by apply Hp|]. rewrite merge_deps_dom by done.
  by rewrite dom_empty_L, (left_id_L ∅ (∪)).
Qed.

Lemma summaries_of_docs (docs : list SummaryJson) :
  summaries_of ((λ doc, Some (JsonDoc doc)) <$> docs) = docs.
Proof.
  unfold summaries_of. induction docs as [|doc docs IH]; [done|].
  cbn [fmap list_fmap omap list_omap]. by rewrite IH.
Qed.

Lemma register_parsed_inr_sections env target cp cbs pds doc w w' :
  register_parsed env target cp cbs pds doc w = (w', inr tt) →
  (is_Some cbs → is_Some (sj_products doc))
  ∧ (is_Some pds → is_Some (sj_dependencies doc)).
Proof.
  unfold register_parsed. intros (u & w1 & H1 & H2)%bind_inr. split.
  - intros [r ->]. destruct (sj_products doc); [by eexists|done].
  - intros [r ->]. destruct (sj_dependencies doc); [by eexists|done].
Qed.

(** What the summary read for a versioned target is, when its step of the
    loop completes. *)
Lemma execute_vt_inr_read env za cbs pds vt w w' :
  execute_vt env za cbs pds vt w = (w', inr tt) →
  the_zinc_analysis w = za →
  fs w' = fs_after_extract env za vt (fs w)
  ∧ exit_status env za vt (fs w) = 0%Z
  ∧ ∃ doc,
      fs_after_extract env za vt (fs w) !! _summary_json_file vt = Some (JsonDoc doc)
      ∧ (is_Some cbs → is_Some (sj_products doc))
      ∧ (is_Some pds → is_Some (sj_dependencies doc))
      ∧ the_classes_by_source w'
        = match cbs with
          | Some _ => (λ m, merge_classes env za m (vt, doc)) <$> the_classes_by_source w
          | None => the_classes_by_source w
          end
      ∧ the_product_deps_by_src w'
        = match pds with
          | Some _ => (λ m, merge_deps m (vt, doc)) <$> the_product_deps_by_src w
          | None => the_product_deps_by_src w
          end.
Proof.
  unfold execute_vt, fs_after_extract, exit_status, analysis_file_of, merge_classes,
    merge_deps, cp_entry_of.
  intros Hrun Hza.
  destruct (za !! vt_target vt) as [[[cp_entry jar] analysis_file]|] eqn:Elook; [|done].
  simpl. apply bind_inr in Hrun as (u & w1 & H1 & H2).
  assert (fs w1
          = (if vt_valid vt then fs w
             else (runjava env
                     (extractor_args env (_analysis_by_runtime_entry za) (vt_target vt)
                        analysis_file (_summary_json_file vt)) (fs w)).2)
          ∧ products w1 = products w
          ∧ (if vt_valid vt then 0%Z
             else (runjava env
                     (extractor_args env (_analysis_by_runtime_entry za) (vt_target vt)
                        analysis_file (_summary_json_file vt)) (fs w)).1) = 0%Z)
    as (Hfs1 & Hp1 & Hexit).
  { destruct (vt_valid vt); simpl in H1.
    - by injection H1 as <- _.
    - rewrite extract_analysis_run, Hza in H1. cbv zeta in H1.
      destruct (decide (_ ≠ 0%Z)) as [|Hz] in H1; [done|].
      injection H1 as <- _. split_and!; [done|done|].
      by destruct (decide ((runjava env
                     (extractor_args env (_analysis_by_runtime_entry za) (vt_target vt)
                        analysis_file (_summary_json_file vt)) (fs w)).1 = 0%Z)). }
  rewrite register_products_unfold in H2.
  apply bind_inr in H2 as (doc & w2 & H2 & H3).
  assert (fs w1 !! _summary_json_file vt = Some (JsonDoc doc)
          ∧ w2 = {| products := products w1; fs := fs w1;
                    trace := trace w1 ++ [OpenRead (_summary_json_file vt)] |})
    as [Hdoc ->].
  { unfold _parse_summary_json, emit, json_load, mbind, M_bind in H2. simpl in H2.
    destruct (fs w1 !! _summary_json_file vt) as [[|d]|]; [done| |done].
    by injection H2 as <- <-. }
  match type of H3 with _ ?w2 = _ =>
    pose proof (register_parsed_preserves fs env (vt_target vt) cp_entry cbs pds doc
                  (λ _ _, eq_refl) (λ _ _, eq_refl) w2) as Hfs
  end.
  rewrite H3 in Hfs. simpl in Hfs.
  pose proof (register_parsed_inr_sections _ _ _ _ _ _ _ _ H3) as [Hsc Hsp].
  apply register_parsed_inr in H3 as [Hc Hp].
  unfold the_classes_by_source, the_product_deps_by_src in *. simpl in *.
  rewrite Hp1 in *. rewrite <- Hfs1.
  split_and!; [congruence|done|].
  exists doc. by rewrite Elook.
Qed.

Lemma loop_inr_read env za cbs pds : ∀ vts w w',
  for_each vts (execute_vt env za cbs pds) w = (w', inr tt) →
  the_zinc_analysis w = za →
  fs w' = fs_after_run env za vts (fs w)
  ∧ Forall (λ status, status = 0%Z) (exit_statuses env za vts (fs w))
  ∧ ∃ docs, length docs = length vts
      ∧ summaries_read env za vts (fs w) = (λ doc, Some (JsonDoc doc)) <$> docs
      ∧ (is_Some cbs → Forall (λ doc, is_Some (sj_products doc)) docs)
      ∧ (is_Some pds → Forall (λ doc, is_Some (sj_dependencies doc)) docs)
      ∧ the_classes_by_source w'
        = match cbs with
          | Some _ => (λ m, foldl (merge_classes env za) m (zip vts docs))
                        <$> the_classes_by_source w
          | None => the_classes_by_source w
          end
      ∧ the_product_deps_by_src w'
        = match pds with
          | Some _ => (λ m, foldl merge_deps m (zip vts docs))
                        <$> the_product_deps_by_src w
          | None => the_product_deps_by_src w
          end.
Proof.
  induction vts as [|vt vts IH]; intros w w' Hrun Hza.
  - injection Hrun as <-. split_and!; [done|constructor|].
    exists []. split_and!; try done.
    + destruct cbs, (the_classes_by_source w); done.
    + destruct pds, (the_product_deps_by_src w); done.
  - cbn [for_each] in Hrun. apply bind_inr in Hrun as ([] & w1 & H1 & H2).
    pose proof (execute_vt_inr _ _ _ _ _ _ _ H1 Hza) as (_ & _ & Hza1 & _).
    apply execute_vt_inr_read in H1
      as (Hfs1 & Hexit & doc & Hdoc & Hsc & Hsp & Hc1 & Hp1); [|done].
    apply IH in H2
      as (Hfs & Hexits & docs & Hlen & Hread & Hscs & Hsps & Hc & Hp); [|done].
    rewrite Hfs1 in Hfs, Hexits, Hread.
    split_and!.
    + exact Hfs.
    + cbn [exit_statuses]. by constructor.
    + exists (doc :: docs). split_and!.
      * simpl. by rewrite Hlen.
      * cbn [summaries_read]. rewrite Hdoc, Hread. done.
      * intros H. constructor; [by apply Hsc|by apply Hscs].
      * intros H. constructor; [by apply Hsp|by apply Hsps].
      * rewrite Hc, Hc1. destruct cbs, (the_classes_by_source w); done.
      * rewrite Hp, Hp1. destruct pds, (the_product_deps_by_src w); done.
Qed.

(** C1: in a run that goes ahead and completes, every versioned target of
    the invalidation check contributes, in order, one invocation of the
    tool exactly when it is invalid, and then one read of its summary
    whether it is valid or not; so the tool ran once per invalid target and
    never for a valid one (and exited with 0 each time).  The summary
    merged for a versioned target is the document found under its summary
    path in the files as they are when it is read, that is, after the tool
    ran if the target is invalid; and the requested maps are what merging
    these documents, one per versioned target, valid ones included, builds
    from empty maps: the per-target map ends with an entry for each of
    them. *)
Theorem execute_extracts_invalid_merges_all env w w' :
  execute env w = (w', inr tt) →
  "classes_by_source" ∈ the_required w ∨ "product_deps_by_src" ∈ the_required w →
  let za := the_zinc_analysis w in
  let all_vts := invalidated env (map_to_list za).*1 in
  trace w' = trace w ++ flat_map (vt_events env za) all_vts
  ∧ length (filter (λ ev, is_RunJava ev = true) (flat_map (vt_events env za) all_vts))
    = length (filter (λ vt, vt_valid vt = false) all_vts)
  ∧ Forall (λ status, status = 0%Z) (exit_statuses env za all_vts (fs w))
  ∧ fs w' = fs_after_run env za all_vts (fs w)
  ∧ (let docs := summaries_of (summaries_read env za all_vts (fs w)) in
     length docs = length all_vts
     ∧ summaries_read env za all_vts (fs w) = (λ doc, Some (JsonDoc doc)) <$> docs
     ∧ ("classes_by_source" ∈ the_required w →
        the_classes_by_source w'
        = Some (foldl (merge_classes env za) ∅ (zip all_vts docs))
        ∧ Forall (λ doc, is_Some (sj_products doc)) docs)
     ∧ ("product_deps_by_src" ∈ the_required w →
        the_product_deps_by_src w'
        = Some (foldl merge_deps ∅ (zip all_vts docs))
        ∧ Forall (λ doc, is_Some (sj_dependencies doc)) docs))
  ∧ ("product_deps_by_src" ∈ the_required w →
     ∃ m : gmap Target EdgeData,
       the_product_deps_by_src w' = Some m
       ∧ ∀ vt, vt ∈ all_vts → is_Some (m !! vt_target vt)).
Proof.
  intros Hrun Hreq za all_vts.
  destruct (execute_completed env w w' Hrun Hreq) as [Htrace _].
  split_and!; [done|apply run_count| | | |].
  4:{ intros Hp. destruct (execute_product_deps_dom env w w' Hrun Hp) as (m & Hm & Hdom).
      exists m. split; [done|]. intros vt Hvt. apply elem_of_dom. rewrite Hdom.
      apply elem_of_list_to_set, list_elem_of_fmap. by exists vt. }
  all: destruct (create_products_run w) as (w1 & Hc & Hcbs & Hpds & Hza & Hrq & Hfs & Htr);
    rewrite (execute_run env w w1 _ Hc) in Hrun;
    rewrite orb_true_intro in Hrun
      by (destruct Hreq as [H|H]; [left|right]; by apply bool_decide_eq_true);
    rewrite Hza in Hrun; fold za all_vts in Hrun;
    apply loop_inr_read in Hrun
      as (Hfs' & Hexits & docs & Hlen & Hread & Hscs & Hsps & Hc' & Hp'); [|done];
    rewrite Hfs in Hfs', Hexits, Hread.
  - exact Hexits.
  - exact Hfs'.
  - assert (summaries_of (summaries_read env za all_vts (fs w)) = docs) as Hdocs
      by (rewrite Hread; apply summaries_of_docs).
    cbv zeta. rewrite Hdocs. split; [done|]. split; [done|]. split.
    + intros Hin. rewrite bool_decide_eq_true_2 in Hcbs by done.
      rewrite Hcbs in Hc', Hscs. simpl in Hc', Hscs. split; [done|].
      apply Hscs. by eexists.
    + intros Hin. rewrite bool_decide_eq_true_2 in Hpds by done.
      rewrite Hpds in Hp', Hsps. simpl in Hp', Hsps. split; [done|].
      apply Hsps. by eexists.
Qed.

Lemma execute_extracts_invalid_merges_all_witness :
  let env := demo_env 0 ["A"] in
  let w := demo_world both_kinds demo_files in
  let w' := (execute env w).1 in
  let za := the_zinc_analysis w in
  let all_vts := invalidated env (map_to_list za).*1 in
  trace w' = trace w ++ flat_map (vt_events env za) all_vts
  ∧ length (filter (λ ev, is_RunJava ev = true) (flat_map (vt_events env za) all_vts))
    = length (filter (λ vt, vt_valid vt = false) all_vts)
  ∧ Forall (λ status, status = 0%Z) (exit_statuses env za all_vts (fs w))
  ∧ fs w' = fs_after_run env za all_vts (fs w)
  ∧ (let docs := summaries_of (summaries_read env za all_vts (fs w)) in
     length docs = length all_vts
     ∧ summaries_read env za all_vts (fs w) = (λ doc, Some (JsonDoc doc)) <$> docs
     ∧ ("classes_by_source" ∈ the_required w →
        the_classes_by_source w'
        = Some (foldl (merge_classes env za) ∅ (zip all_vts docs))
        ∧ Forall (λ doc, is_Some (sj_products doc)) docs)
     ∧ ("product_deps_by_src" ∈ the_required w →
        the_product_deps_by_src w'
        = Some (foldl merge_deps ∅ (zip all_vts docs))
        ∧ Forall (λ doc, is_Some (sj_dependencies doc)) docs))
  ∧ ("product_deps_by_src" ∈ the_required w →
     ∃ m : gmap Target EdgeData,
       the_product_deps_by_src w' = Some m
       ∧ ∀ vt, vt ∈ all_vts → is_Some (m !! vt_target vt)).
Proof.
  apply (execute_extracts_invalid_merges_all (demo_env 0 ["A"])
           (demo_world both_kinds demo_files)).
  - vm_compute. reflexivity.
  - left. apply (bool_decide_unpack _). vm_compute. exact I.
Defined.

(** On the example the summaries read are the two on disk, A's as it was
    and B's as the tool wrote it, and the maps are their merge. *)
Example merged_summaries_are_those_on_disk :
  let env := demo_env 0 ["A"] in
  let w := demo_world both_kinds demo_files in
  summaries_read env (the_zinc_analysis w)
    (invalidated env (map_to_list (the_zinc_analysis w)).*1) (fs w)
  = [Some (JsonDoc (demo_summary "a.analysis")); Some (JsonDoc (demo_summary "b.analysis"))]
  ∧ the_classes_by_source (execute env w).1
    = Some {[ "Shared.scala" := [("/out/A", "/out/A/Shared.class");
                                 ("/out/B", "/out/B/Shared.class")];
              "A.scala" := [("/out/A", "/out/A/A.class")];
              "B.scala" := [("/out/B", "/out/B/B.class")] ]}
  ∧ the_product_deps_by_src (execute env w).1
    = Some {[ "A" := []; "B" := [("/out/B/B.class", ["/out/A/A.class"])] ]}.
Proof. vm_compute. done. Qed.

(** A run in which A is a cache hit and B is extracted: one invocation,
    two reads, and the same maps as when both are extracted. *)
Example cache_hit_run :
  let hit := (execute (demo_env 0 ["A"]) (demo_world both_kinds demo_files)).1 in
  let miss := (execute (demo_env 0 []) (demo_world both_kinds ∅)).1 in
  trace hit
  = [ OpenRead "/cache/A/summary.json";
      RunJava main_class
        [ "-summary-json"; "/cache/B/summary.json"; "-analysis-cache"; "b.analysis";
          "-classpath"; "libX.jar:libA.jar"; "-analysis-map"; "libA.jar:a.analysis";
          "-rebase-map"; "/root:." ];
      OpenRead "/cache/B/summary.json" ]
  ∧ products hit = products miss.
Proof. vm_compute. done. Qed.

(** *** Failure of the tool *)

(** C4: when the tool exits with a non-zero status the run stops, after a
    single invocation and with nothing retried, but what is raised is
    [NameError] for the unbound name [TaskError], not a [TaskError] naming
    the target and carrying the exit code. *)
Theorem execute_tool_failure_raises_NameError :
  (execute (demo_env 1 []) (demo_world both_kinds ∅)).2 = inl (NameError "TaskError")
  ∧ trace (execute (demo_env 1 []) (demo_world both_kinds ∅)).1
    = [ RunJava main_class
          [ "-summary-json"; "/cache/A/summary.json"; "-analysis-cache"; "a.analysis";
            "-classpath"; "libX.jar"; "-analysis-map"; "";
            "-rebase-map"; "/root:." ] ]
  ∧ (execute (demo_env 1 []) (demo_world both_kinds ∅)).2
    ≠ inl (TaskError "Failed to parse analysis for A" 1).
Proof. vm_compute. done. Qed.

(** Whatever the target and the non-zero status, [_extract_analysis] ends
    in that [NameError]. *)
Lemma extract_analysis_nonzero env target af sf w :
  (runjava env
     (extractor_args env (_analysis_by_runtime_entry (the_zinc_analysis w)) target af sf)
     (fs w)).1 ≠ 0%Z →
  (_extract_analysis env target af sf w).2 = inl (NameError "TaskError").
Proof. intros Hne. rewrite extract_analysis_run. simpl. by rewrite decide_True. Qed.

(** *** Only the requested kind *)

Lemma register_products_None_deps env target cp f cbs :
  preserves the_product_deps_by_src (_register_products env target cp f cbs None).
Proof.
  unfold _register_products, _parse_summary_json, classes_by_source_add. frame_task.
Qed.

Lemma register_products_None_classes env target cp f pds :
  preserves the_classes_by_source (_register_products env target cp f None pds).
Proof.
  unfold _register_products, _parse_summary_json, product_deps_by_src_set. frame_task.
Qed.

Lemma execute_vt_None_deps env za cbs vt :
  preserves the_product_deps_by_src (execute_vt env za cbs None vt).
Proof.
  unfold execute_vt. destruct (za !! vt_target vt) as [[[? ?] ?]|]; [|by intros ?].
  apply preserves_bind; [|intros ?; apply register_products_None_deps].
  destruct (negb (vt_valid vt)); [|by intros ?].
  by apply extract_analysis_preserves.
Qed.

Lemma execute_vt_None_classes env za pds vt :
  preserves the_classes_by_source (execute_vt env za None pds vt).
Proof.
  unfold execute_vt. destruct (za !! vt_target vt) as [[[? ?] ?]|]; [|by intros ?].
  apply preserves_bind; [|intros ?; apply register_products_None_classes].
  destruct (negb (vt_valid vt)); [|by intros ?].
  by apply extract_analysis_preserves.
Qed.

Lemma execute_keeps_None_classes env w :
  "classes_by_source" ∉ the_required w →
  the_classes_by_source w = None →
  the_classes_by_source (execute env w).1 = None.
Proof.
  intros Hreq Hnone.
  destruct (create_products_run w) as (w1 & Hc & Hcbs & _).
  rewrite (execute_run env w w1 _ Hc).
  rewrite bool_decide_eq_false_2 in Hcbs by done. rewrite Hnone in Hcbs.
  destruct (_ || _); [|done].
  rewrite Hcbs at 1. simpl ref_of.
  by rewrite (preserves_for_each the_classes_by_source _ _
                (execute_vt_None_classes env _ _)).
Qed.

Lemma execute_keeps_None_deps env w :
  "product_deps_by_src" ∉ the_required w →
  the_product_deps_by_src w = None →
  the_product_deps_by_src (execute env w).1 = None.
Proof.
  intros Hreq Hnone.
  destruct (create_products_run w) as (w1 & Hc & _ & Hpds & _).
  rewrite (execute_run env w w1 _ Hc).
  rewrite bool_decide_eq_false_2 in Hpds by done. rewrite Hnone in Hpds.
  destruct (_ || _); [|done].
  rewrite Hpds at 1. simpl ref_of.
  by rewrite (preserves_for_each the_product_deps_by_src _ _
                (execute_vt_None_deps env _ _)).
Qed.

Lemma created_false k w :
  created k w = false
  ↔ match k with
    | ClassesBySource => the_classes_by_source w = None
    | ProductDepsBySrc => the_product_deps_by_src w = None
    end.
Proof.
  unfold the_classes_by_source, the_product_deps_by_src.
  destruct k; simpl; rewrite bool_decide_eq_false, <- eq_None_not_Some; done.
Qed.

(** C10: a product kind that is not required and has no map before the run
    has none after it, however the run ends; and a registration step that
    is handed [None] for a map leaves that map as it was. *)
Theorem unrequested_kind_untouched env k w :
  kind_name k ∉ the_required w →
  created k w = false →
  created k (execute env w).1 = false
  ∧ (∀ target cp f cbs w0,
       the_product_deps_by_src (_register_products env target cp f cbs None w0).1
       = the_product_deps_by_src w0)
  ∧ (∀ target cp f pds w0,
       the_classes_by_source (_register_products env target cp f None pds w0).1
       = the_classes_by_source w0).
Proof.
  intros Hreq Hcreated. split_and!.
  - apply created_false. apply created_false in Hcreated.
    destruct k; simpl in Hreq.
    + by apply execute_keeps_None_classes.
    + by apply execute_keeps_None_deps.
  - intros. apply register_products_None_deps.
  - intros. apply register_products_None_classes.
Qed.

Lemma unrequested_kind_untouched_witness :
  created ProductDepsBySrc
    (execute (demo_env 0 ["A"]) (demo_world ["classes_by_source"] demo_files)).1 = false
  ∧ created ClassesBySource
      (execute (demo_env 0 ["A"]) (demo_world ["classes_by_source"] demo_files)).1 = true.
Proof.
  split.
  - apply (unrequested_kind_untouched (demo_env 0 ["A"]) ProductDepsBySrc
             (demo_world ["classes_by_source"] demo_files)).
    + apply (bool_decide_unpack _). vm_compute. exact I.
    + vm_compute. reflexivity.
  - vm_compute. reflexivity.
Defined.

(** ** Further properties of the extraction task *)

(** *** Creating the products *)

(** X1: [_create_products_if_should_run] never fails; it answers true
    exactly when one of the task's [product_types] is required, binds an
    empty map to each required kind, and leaves the other kind's slot, the
    files and the trace as they were. *)
Theorem create_products_exact w :
  ∃ w1 should_run,
    _create_products_if_should_run w = (w1, inr should_run)
    ∧ (should_run = true ↔ ∃ name, name ∈ product_types ∧ name ∈ the_required w)
    ∧ the_classes_by_source w1
      = (if decide ("classes_by_source" ∈ the_required w)
         then Some ∅ else the_classes_by_source w)
    ∧ the_product_deps_by_src w1
      = (if decide ("product_deps_by_src" ∈ the_required w)
         then Some ∅ else the_product_deps_by_src w)
    ∧ the_zinc_analysis w1 = the_zinc_analysis w
    ∧ the_required w1 = the_required w
    ∧ fs w1 = fs w
    ∧ trace w1 = trace w.
Proof.
  destruct (create_products_run w) as (w1 & Hc & Hcbs & Hpds & Hza & Hrq & Hfs & Htr).
  exists w1. eexists. split; [exact Hc|]. split_and!; try done.
  - rewrite orb_true_iff, !bool_decide_eq_true. unfold product_types. split.
    + intros [H|H]; eexists; (split; [|exact H]).
      * apply list_elem_of_here.
      * apply list_elem_of_further, list_elem_of_here.
    + intros (name & Hn & Hr).
      apply elem_of_cons in Hn as [->|Hn]; [by left|].
      apply elem_of_cons in Hn as [->|Hn]; [by right|].
      by apply elem_of_nil in Hn.
  - rewrite Hcbs. by destruct (decide _); [rewrite bool_decide_eq_true_2|rewrite bool_decide_eq_false_2].
  - rewrite Hpds. by destruct (decide _); [rewrite bool_decide_eq_true_2|rewrite bool_decide_eq_false_2].
Qed.

(** *** The runtime-entry map *)

Lemma foldl_entry_sound (l : list (string * string * string)) :
  ∀ (m0 : gmap string string) entry a,
  foldl (λ m '(_, cp_entry, analysis_file), <[cp_entry := analysis_file]> m) m0 l
    !! entry = Some a →
  m0 !! entry = Some a ∨ ∃ c, (c, entry, a) ∈ l.
Proof.
  induction l as [|[[c1 e1] a1] l IH]; intros m0 entry a; [by left|].
  cbn [foldl]. intros [H|[c H]]%IH.
  - rewrite lookup_insert in H. case_decide as He.
    + injection H as ->. subst. right. exists c1. left.
    + by left.
  - right. exists c. by right.
Qed.

Lemma foldl_entry_complete (l : list (string * string * string)) :
  ∀ (m0 : gmap string string) entry a,
  (∀ c' a', (c', entry, a') ∈ l → a' = a) →
  (m0 !! entry = Some a ∨ ∃ c, (c, entry, a) ∈ l) →
  foldl (λ m '(_, cp_entry, analysis_file), <[cp_entry := analysis_file]> m) m0 l
    !! entry = Some a.
Proof.
  induction l as [|[[c1 e1] a1] l IH]; intros m0 entry a Huniq Hin.
  - destruct Hin as [H|[c H]]; [done|by apply elem_of_nil in H].
  - cbn [foldl]. apply IH.
    + intros c' a' H. eapply Huniq. by right.
    + destruct (decide (e1 = entry)) as [->|Hne].
      * left. rewrite lookup_insert_eq. f_equal. eapply Huniq. left.
      * rewrite lookup_insert_ne by done.
        destruct Hin as [H|[c H]]; [by left|]. right. exists c.
        apply elem_of_cons in H as [H|H]; [congruence|done].
Qed.

Lemma foldl_entry_keeps (l : list (string * string * string)) :
  ∀ (m0 : gmap string string) entry,
  is_Some (m0 !! entry) →
  is_Some (foldl (λ m '(_, cp_entry, analysis_file), <[cp_entry := analysis_file]> m)
             m0 l !! entry).
Proof.
  induction l as [|[[c1 e1] a1] l IH]; intros m0 entry Hin; [done|].
  cbn [foldl]. apply IH. rewrite lookup_insert. case_decide; [by eexists|done].
Qed.

Lemma foldl_entry_key (l : list (string * string * string)) :
  ∀ (m0 : gmap string string) c entry a,
  (c, entry, a) ∈ l →
  is_Some (foldl (λ m '(_, cp_entry, analysis_file), <[cp_entry := analysis_file]> m)
             m0 l !! entry).
Proof.
  induction l as [|[[c1 e1] a1] l IH]; intros m0 c entry a Hin.
  - by apply elem_of_nil in Hin.
  - cbn [foldl]. apply elem_of_cons in Hin as [[= <- <- <-]|Hin]; [|by eapply IH].
    apply foldl_entry_keeps. rewrite lookup_insert_eq. by eexists.
Qed.

Lemma zinc_analysis_values (za : gmap Target (string * string * string)) x :
  x ∈ (map_to_list za).*2 ↔ ∃ t, za !! t = Some x.
Proof.
  rewrite list_elem_of_fmap. split.
  - intros ([t y] & -> & H%elem_of_map_to_list). by exists t.
  - intros [t H]. exists (t, x). split; [done|]. by apply elem_of_map_to_list.
Qed.

(** X2: the runtime-entry map binds an entry only to the analysis file of
    some target that has this entry as its runtime entry; every target's
    runtime entry is a key; and when no two targets disagree on an entry's
    analysis file, the entry is bound to that file. *)
Theorem analysis_by_runtime_entry_spec (za : gmap Target (string * string * string)) :
  (∀ entry a, _analysis_by_runtime_entry za !! entry = Some a →
              ∃ t c, za !! t = Some (c, entry, a))
  ∧ (∀ t c entry a, za !! t = Some (c, entry, a) →
                    is_Some (_analysis_by_runtime_entry za !! entry))
  ∧ (∀ t c entry a, za !! t = Some (c, entry, a) →
       (∀ t' c' a', za !! t' = Some (c', entry, a') → a' = a) →
       _analysis_by_runtime_entry za !! entry = Some a).
Proof.
  unfold _analysis_by_runtime_entry. split_and!.
  - intros entry a [H|[c H]]%foldl_entry_sound; [by rewrite lookup_empty in H|].
    apply zinc_analysis_values in H as [t H]. by exists t, c.
  - intros t c entry a H. eapply foldl_entry_key.
    apply zinc_analysis_values. by exists t.
  - intros t c entry a H Huniq. apply foldl_entry_complete.
    + intros c' a' [t' H']%zinc_analysis_values. by eapply Huniq.
    + right. exists c. apply zinc_analysis_values. by exists t.
Qed.

(** X3: what the task hands to the tool after [-analysis-map] for a target:
    every pair joins an entry of that target's classpath with the analysis
    file of a target whose runtime entry it is; a classpath entry that is
    the runtime entry of an analysed target is always among the pairs, and
    one that is no analysed target's runtime entry never is. *)
Theorem upstream_pairs_of_zinc_analysis env
    (za : gmap Target (string * string * string)) target :
  let pairs := _upstream_analysis (compile_classpath env target)
                                  (_analysis_by_runtime_entry za) in
  (∀ entry a, (entry, a) ∈ pairs →
     entry ∈ compile_classpath env target ∧ ∃ t c, za !! t = Some (c, entry, a))
  ∧ (∀ entry t c a, entry ∈ compile_classpath env target →
       za !! t = Some (c, entry, a) → entry ∈ pairs.*1)
  ∧ (∀ entry, (∀ t c a, za !! t ≠ Some (c, entry, a)) → entry ∉ pairs.*1).
Proof.
  intros pairs. unfold pairs, _analysis_by_runtime_entry. split_and!.
  - intros entry a [Hcp Hm]%upstream_analysis_elem. split; [done|].
    apply foldl_entry_sound in Hm as [H|[c H]]; [by rewrite lookup_empty in H|].
    apply zinc_analysis_values in H as [t H]. by exists t, c.
  - intros entry t c a Hcp Hza.
    rewrite upstream_analysis_order. apply list_elem_of_filter. split; [|done].
    eapply foldl_entry_key. apply zinc_analysis_values. by exists t.
  - intros entry Hnone. rewrite upstream_analysis_order.
    intros [[a Hm] _]%list_elem_of_filter.
    apply foldl_entry_sound in Hm as [H|[c H]]; [by rewrite lookup_empty in H|].
    apply zinc_analysis_values in H as [t H]. by eapply Hnone.
Qed.

(** *** Running the tool *)

(** X4: when the tool exits with status 0, [_extract_analysis] returns
    normally after exactly one invocation of the extractor's main class;
    the products registry is as before and the files are what the tool
    left. *)
Theorem extract_analysis_exit_zero env target analysis_file summary_json_file w :
  (runjava env
     (extractor_args env (_analysis_by_runtime_entry (the_zinc_analysis w))
        target analysis_file summary_json_file) (fs w)).1 = 0%Z →
  ∃ w', _extract_analysis env target analysis_file summary_json_file w = (w', inr tt)
      ∧ products w' = products w
      ∧ fs w' = (runjava env
                   (extractor_args env (_analysis_by_runtime_entry (the_zinc_analysis w))
                      target analysis_file summary_json_file) (fs w)).2
      ∧ trace w'
        = trace w ++
          [RunJava "org.pantsbuild.zinc.extractor.Main"
             (extractor_args env (_analysis_by_runtime_entry (the_zinc_analysis w))
                target analysis_file summary_json_file)]
      ∧ tool_runs w' = tool_runs w ++
          [RunJava "org.pantsbuild.zinc.extractor.Main"
             (extractor_args env (_analysis_by_runtime_entry (the_zinc_analysis w))
                target analysis_file summary_json_file)].
Proof.
  intros Hexit. rewrite extract_analysis_run. cbv zeta. rewrite Hexit.
  rewrite decide_False by (by intros H; apply H).
  eexists. split; [reflexivity|]. split_and!; try done.
  unfold tool_runs. simpl. rewrite filter_app. done.
Qed.

Lemma extract_analysis_exit_zero_witness :
  ∃ w', _extract_analysis (demo_env 0 []) "B" "b.analysis" "/cache/B/summary.json"
          (demo_world both_kinds ∅) = (w', inr tt)
      ∧ fs w' !! "/cache/B/summary.json" = Some (JsonDoc (demo_summary "b.analysis"))
      ∧ length (tool_runs w') = 1.
Proof.
  destruct (extract_analysis_exit_zero (demo_env 0 []) "B" "b.analysis"
              "/cache/B/summary.json" (demo_world both_kinds ∅))
    as (w' & Hrun & _ & Hfs & _ & Hruns).
  - vm_compute. reflexivity.
  - exists w'. split; [exact Hrun|]. rewrite Hfs, Hruns. split; vm_compute; reflexivity.
Defined.

(** *** The summary file of a versioned target *)

Lemma string_length_app (a b : string) :
  String.length (a +:+ b) = String.length a + String.length b.
Proof. induction a as [|c a IH]; simpl; [done|]. by rewrite IH. Qed.

Lemma string_app_inv_tail (a b s : string) : a +:+ s = b +:+ s → a = b.
Proof.
  revert b. induction a as [|c a IH]; intros [|c' b] H.
  - done.
  - apply (f_equal String.length) in H. rewrite !string_length_app in H.
    simpl in H. lia.
  - apply (f_equal String.length) in H. rewrite !string_length_app in H.
    simpl in H. lia.
  - simpl in H. injection H as -> H. f_equal. by apply IH.
Qed.

(** X5: the summary of a versioned target lies in its results directory
    under the name [summary.json]: a separator is put in unless the
    directory is empty or already ends in one; and two non-empty results
    directories without a trailing separator that differ give different
    summary files. *)
Theorem summary_json_file_path vt1 vt2 :
  vt_results_dir vt1 ≠ "" → ends_with_slash (vt_results_dir vt1) = false →
  vt_results_dir vt2 ≠ "" → ends_with_slash (vt_results_dir vt2) = false →
  _summary_json_file vt1 = vt_results_dir vt1 +:+ "/summary.json"
  ∧ (_summary_json_file vt1 = _summary_json_file vt2 →
     vt_results_dir vt1 = vt_results_dir vt2)
  ∧ (∀ vt, ends_with_slash (vt_results_dir vt) = true →
           _summary_json_file vt = vt_results_dir vt +:+ "summary.json")
  ∧ (∀ vt, vt_results_dir vt = "" → _summary_json_file vt = "summary.json").
Proof.
  intros Hne1 Hs1 Hne2 Hs2.
  assert (∀ vt, vt_results_dir vt ≠ "" → ends_with_slash (vt_results_dir vt) = false →
                _summary_json_file vt = vt_results_dir vt +:+ "/summary.json") as Hjoin.
  { intros vt Hne Hs. unfold _summary_json_file, os_path_join. simpl.
    rewrite bool_decide_eq_false_2 by done. by rewrite Hs. }
  split_and!.
  - by apply Hjoin.
  - rewrite !Hjoin by done. apply string_app_inv_tail.
  - intros vt Hs. unfold _summary_json_file, os_path_join. simpl.
    rewrite Hs. by rewrite orb_true_r.
  - intros vt H. unfold _summary_json_file. by rewrite H.
Qed.

Lemma summary_json_file_path_witness :
  _summary_json_file {| vt_target := "A"; vt_valid := true; vt_results_dir := "/cache/A" |}
  = "/cache/A/summary.json"
  ∧ _summary_json_file {| vt_target := "A"; vt_valid := true; vt_results_dir := "/cache/A" |}
    ≠ _summary_json_file {| vt_target := "B"; vt_valid := true; vt_results_dir := "/cache/B" |}.
Proof.
  destruct (summary_json_file_path
              {| vt_target := "A"; vt_valid := true; vt_results_dir := "/cache/A" |}
              {| vt_target := "B"; vt_valid := true; vt_results_dir := "/cache/B" |})
    as (H1 & H2 & _).
  - done.
  - vm_compute. reflexivity.
  - done.
  - vm_compute. reflexivity.
  - split; [exact H1|]. intros H. apply H2 in H. discriminate H.
Defined.

(** *** Registering a summary: errors and edge cases *)

Lemma register_parsed_total env target cp cbs pds doc w :
  (cbs = None ∨ is_Some (sj_products doc)) →
  (pds = None ∨ is_Some (sj_dependencies doc)) →
  ∃ w', register_parsed env target cp cbs pds doc w = (w', inr tt).
Proof.
  intros Hc Hp. unfold register_parsed.
  assert (∃ w1,
    match cbs with
    | Some classes_by_source =>
        let buildroot := get_buildroot env in
        match sj_products doc with
        | None => raise (KeyError "products")
        | Some items =>
            for_each items (λ '(abs_src, classes),
              let source := relpath env abs_src buildroot in
              classes_by_source_add classes_by_source source cp classes)
        end
    | None => mret tt
    end w = (w1, inr tt)) as [w1 H1].
  { destruct cbs as [[]|]; [|by eexists].
    destruct Hc as [|[items ->]]; [done|]. simpl.
    destruct (classes_by_source_loop env cp items w) as [Hr _].
    destruct (for_each items _ w) as [w1 r1]. simpl in Hr. subst r1. by eexists. }
  rewrite (bind_step _ _ _ _ _ H1).
  destruct pds as [[]|]; [|by eexists].
  destruct Hp as [|[deps ->]]; [done|]. by eexists.
Qed.

Lemma register_products_total env target cp f cbs pds w doc :
  fs w !! f = Some (JsonDoc doc) →
  (cbs = None ∨ is_Some (sj_products doc)) →
  (pds = None ∨ is_Some (sj_dependencies doc)) →
  ∃ w', _register_products env target cp f cbs pds w = (w', inr tt)
      ∧ fs w' = fs w
      ∧ trace w' = trace w ++ [OpenRead f]
      ∧ the_classes_by_source w'
        = match cbs with
          | Some _ => merge_products env cp (default [] (sj_products doc))
                        <$> the_classes_by_source w
          | None => the_classes_by_source w
          end
      ∧ the_product_deps_by_src w'
        = match pds with
          | Some _ => (λ m, <[target := default [] (sj_dependencies doc)]> m)
                        <$> the_product_deps_by_src w
          | None => the_product_deps_by_src w
          end.
Proof.
  intros Hf Hc Hp. rewrite register_products_unfold.
  rewrite (bind_step _ _ _ _ _ (parse_summary_json_ok f w doc Hf)).
  match goal with |- context [register_parsed _ _ _ _ _ _ ?w0] =>
    destruct (register_parsed_total env target cp cbs pds doc w0 Hc Hp) as [w' Hrun];
    pose proof (register_parsed_preserves fs env target cp cbs pds doc
                  (λ _ _, eq_refl) (λ _ _, eq_refl) w0) as Hfs;
    pose proof (register_parsed_preserves trace env target cp cbs pds doc
                  (λ _ _, eq_refl) (λ _ _, eq_refl) w0) as Htr
  end.
  rewrite Hrun in Hfs, Htr. simpl in Hfs, Htr.
  exists w'. split; [done|]. split; [done|]. split; [done|].
  by apply register_parsed_inr in Hrun.
Qed.

(** X6: a summary file that is missing or is not a JSON document makes
    [_register_products] raise [IOError], respectively [ValueError],
    whichever maps were passed, even none; the read is recorded and
    neither the registry nor the files change. *)
Theorem register_products_unreadable env target cp f cbs pds w :
  (∀ doc, fs w !! f ≠ Some (JsonDoc doc)) →
  _register_products env target cp f cbs pds w
  = ({| products := products w; fs := fs w; trace := trace w ++ [OpenRead f] |},
     inl (match fs w !! f with Some _ => ValueError f | None => IOError f end)).
Proof.
  intros Hbad. unfold _register_products, _parse_summary_json, emit, json_load.
  unfold mbind, M_bind. simpl.
  destruct (fs w !! f) as [[|doc]|]; [done| |done]. by destruct (Hbad doc).
Qed.

Lemma register_products_unreadable_witness :
  (_register_products (demo_env 0 []) "A" "/out/A" "/cache/A/summary.json" None None
     (demo_world both_kinds ∅)).2 = inl (IOError "/cache/A/summary.json")
  ∧ (_register_products (demo_env 0 []) "A" "/out/A" "/cache/A/summary.json"
       (Some Ref) (Some Ref)
       (demo_world both_kinds {[ "/cache/A/summary.json" := NotJson ]})).2
    = inl (ValueError "/cache/A/summary.json").
Proof.
  split.
  - rewrite (register_products_unreadable (demo_env 0 []) "A" "/out/A"
               "/cache/A/summary.json" None None (demo_world both_kinds ∅)).
    + reflexivity.
    + intros doc. vm_compute. discriminate.
  - rewrite (register_products_unreadable (demo_env 0 []) "A" "/out/A"
               "/cache/A/summary.json" (Some Ref) (Some Ref)
               (demo_world both_kinds {[ "/cache/A/summary.json" := NotJson ]})).
    + reflexivity.
    + intros doc. vm_compute. discriminate.
Defined.

(** X7: when the per-source map is passed and the summary has no
    [products] section, [_register_products] raises [KeyError] for
    [products] before anything is stored: both maps are as before, also
    when the summary does have a [dependencies] section and the per-target
    map was passed. *)
Theorem register_products_without_products env target cp f pds w doc :
  fs w !! f = Some (JsonDoc doc) →
  sj_products doc = None →
  _register_products env target cp f (Some Ref) pds w
  = ({| products := products w; fs := fs w; trace := trace w ++ [OpenRead f] |},
     inl (KeyError "products")).
Proof.
  intros Hf Hnone. rewrite register_products_unfold.
  rewrite (bind_step _ _ _ _ _ (parse_summary_json_ok f w doc Hf)).
  unfold register_parsed. rewrite Hnone. reflexivity.
Qed.

(** X8: when both maps are passed and the summary has a [products] section
    but no [dependencies] section, [_register_products] raises [KeyError]
    for [dependencies] only after the per-source map has taken the
    summary's products; the per-target map is untouched. *)
Theorem register_products_without_dependencies env target cp f w doc items
    (m : gmap string MultipleRootedProducts) :
  fs w !! f = Some (JsonDoc doc) →
  sj_products doc = Some items →
  sj_dependencies doc = None →
  the_classes_by_source w = Some m →
  ∃ w', _register_products env target cp f (Some Ref) (Some Ref) w
        = (w', inl (KeyError "dependencies"))
      ∧ the_classes_by_source w' = Some (merge_products env cp items m)
      ∧ (∀ source, default [] (merge_products env cp items m !! source)
                   = default [] (m !! source) ++ contribution env cp items source)
      ∧ the_product_deps_by_src w' = the_product_deps_by_src w.
Proof.
  intros Hf Hitems Hnone Hm. rewrite register_products_unfold.
  rewrite (bind_step _ _ _ _ _ (parse_summary_json_ok f w doc Hf)).
  unfold register_parsed. rewrite Hitems, Hnone. cbv zeta.
  match goal with |- context [for_each items ?b ≫= _] =>
    match goal with |- context [_ ?w0 = _] =>
      destruct (classes_by_source_loop env cp items w0) as [Hr Hc];
      pose proof (preserves_for_each the_product_deps_by_src items b
                    (ltac:(intros [??]; frame)) w0) as Hp;
      destruct (for_each items b w0) as [w1 r1] eqn:E1
    end
  end.
  simpl in Hr, Hc, Hp. subst r1. rewrite (bind_step _ _ _ _ _ E1).
  exists w1. split; [reflexivity|]. split_and!.
  - rewrite Hc. unfold the_classes_by_source in *. simpl. by rewrite Hm.
  - intros source. apply merge_products_lookup.
  - exact Hp.
Qed.

Lemma register_products_without_products_witness :
  (_register_products (demo_env 0 []) "A" "/out/A" "/cache/A/summary.json"
     (Some Ref) (Some Ref)
     (demo_world_ready {[ "/cache/A/summary.json" := JsonDoc demo_doc_no_products ]})).2
  = inl (KeyError "products")
  ∧ the_product_deps_by_src
      (_register_products (demo_env 0 []) "A" "/out/A" "/cache/A/summary.json"
         (Some Ref) (Some Ref)
         (demo_world_ready {[ "/cache/A/summary.json" := JsonDoc demo_doc_no_products ]})).1
    = Some ∅.
Proof.
  rewrite (register_products_without_products (demo_env 0 []) "A" "/out/A"
             "/cache/A/summary.json" (Some Ref)
             (demo_world_ready {[ "/cache/A/summary.json" := JsonDoc demo_doc_no_products ]})
             demo_doc_no_products).
  - split; reflexivity.
  - vm_compute. reflexivity.
  - reflexivity.
Defined.

Lemma register_products_without_dependencies_witness :
  ∃ w', _register_products (demo_env 0 []) "A" "/out/A" "/cache/A/summary.json"
          (Some Ref) (Some Ref)
          (demo_world_ready {[ "/cache/A/summary.json" := JsonDoc demo_doc_no_dependencies ]})
        = (w', inl (KeyError "dependencies"))
      ∧ (the_classes_by_source w' ≫= (.!! "A.scala")) = Some [("/out/A", "/out/A/A.class")]
      ∧ the_product_deps_by_src w' = Some ∅.
Proof.
  destruct (register_products_without_dependencies (demo_env 0 []) "A" "/out/A"
              "/cache/A/summary.json"
              (demo_world_ready {[ "/cache/A/summary.json" := JsonDoc demo_doc_no_dependencies ]})
              demo_doc_no_dependencies [("/root/A.scala", ["/out/A/A.class"])] ∅)
    as (w' & Hrun & Hc & _ & Hp).
  - vm_compute. reflexivity.
  - reflexivity.
  - reflexivity.
  - reflexivity.
  - exists w'. split; [exact Hrun|]. rewrite Hc, Hp. split; vm_compute; reflexivity.
Defined.

(** X9: a section of the summary is looked up only when its map was
    passed: with a parseable summary, [_register_products] completes as
    soon as every passed map finds its section; it records one read,
    leaves the files alone, and a map that was not passed is unchanged. *)
Theorem register_products_needs_requested_sections env target cp f cbs pds w doc :
  fs w !! f = Some (JsonDoc doc) →
  (cbs = None ∨ is_Some (sj_products doc)) →
  (pds = None ∨ is_Some (sj_dependencies doc)) →
  ∃ w', _register_products env target cp f cbs pds w = (w', inr tt)
      ∧ fs w' = fs w
      ∧ trace w' = trace w ++ [OpenRead f]
      ∧ (cbs = None → the_classes_by_source w' = the_classes_by_source w)
      ∧ (pds = None → the_product_deps_by_src w' = the_product_deps_by_src w).
Proof.
  intros Hf Hc Hp.
  destruct (register_products_total env target cp f cbs pds w doc Hf Hc Hp)
    as (w' & Hrun & Hfs & Htr & Hcbs & Hpds).
  exists w'. split_and!; try done.
  - intros ->. exact Hcbs.
  - intros ->. exact Hpds.
Qed.

Lemma register_products_needs_requested_sections_witness :
  ∃ w', _register_products (demo_env 0 []) "A" "/out/A" "/cache/A/summary.json"
          None (Some Ref)
          (demo_world_ready {[ "/cache/A/summary.json" := JsonDoc demo_doc_no_products ]})
        = (w', inr tt)
      ∧ the_classes_by_source w' = Some ∅.
Proof.
  destruct (register_products_needs_requested_sections (demo_env 0 []) "A" "/out/A"
              "/cache/A/summary.json" None (Some Ref)
              (demo_world_ready {[ "/cache/A/summary.json" := JsonDoc demo_doc_no_products ]})
              demo_doc_no_products)
    as (w' & Hrun & _ & _ & Hc & _).
  - vm_compute. reflexivity.
  - by left.
  - right. by eexists.
  - exists w'. split; [exact Hrun|]. by rewrite Hc.
Defined.

(** X10: registering the same summary for the same target a second time
    leaves the per-target map as the first registration left it, but
    appends the summary's outputs to the per-source entries once more. *)
Theorem register_products_twice env target cp f w doc items deps
    (m : gmap string MultipleRootedProducts) (d : gmap Target EdgeData) :
  fs w !! f = Some (JsonDoc doc) →
  sj_products doc = Some items →
  sj_dependencies doc = Some deps →
  the_classes_by_source w = Some m →
  the_product_deps_by_src w = Some d →
  ∃ w1 w2 (m2 : gmap string MultipleRootedProducts),
    _register_products env target cp f (Some Ref) (Some Ref) w = (w1, inr tt)
    ∧ _register_products env target cp f (Some Ref) (Some Ref) w1 = (w2, inr tt)
    ∧ the_product_deps_by_src w2 = the_product_deps_by_src w1
    ∧ the_classes_by_source w2 = Some m2
    ∧ ∀ source,
        default [] (m2 !! source)
        = default [] (m !! source) ++ contribution env cp items source
                                   ++ contribution env cp items source.
Proof.
  intros Hf Hitems Hdeps Hm Hd.
  destruct (register_products_total env target cp f (Some Ref) (Some Ref) w doc Hf)
    as (w1 & Hrun1 & Hfs1 & _ & Hc1 & Hp1); [right; by rewrite Hitems|right; by rewrite Hdeps|].
  destruct (register_products_total env target cp f (Some Ref) (Some Ref) w1 doc)
    as (w2 & Hrun2 & _ & _ & Hc2 & Hp2);
    [by rewrite Hfs1|right; by rewrite Hitems|right; by rewrite Hdeps|].
  rewrite Hitems in Hc1, Hc2. rewrite Hdeps in Hp1, Hp2. simpl in *.
  rewrite Hm in Hc1. rewrite Hd in Hp1. rewrite Hc1 in Hc2. rewrite Hp1 in Hp2.
  simpl in *.
  exists w1, w2, (merge_products env cp items (merge_products env cp items m)).
  split_and!; try done.
  - rewrite Hp2, Hp1. by rewrite insert_insert_eq.
  - intros source. by rewrite !merge_products_lookup, app_assoc.
Qed.

Lemma register_products_twice_witness :
  ∃ w1 w2,
    _register_products (demo_env 0 []) "A" "/out/A" "/cache/A/summary.json"
      (Some Ref) (Some Ref) (demo_world_ready demo_files) = (w1, inr tt)
    ∧ _register_products (demo_env 0 []) "A" "/out/A" "/cache/A/summary.json"
        (Some Ref) (Some Ref) w1 = (w2, inr tt)
    ∧ the_product_deps_by_src w2 = the_product_deps_by_src w1
    ∧ (the_classes_by_source w2 ≫= (.!! "A.scala"))
      = Some [("/out/A", "/out/A/A.class"); ("/out/A", "/out/A/A.class")].
Proof.
  destruct (register_products_twice (demo_env 0 []) "A" "/out/A" "/cache/A/summary.json"
              (demo_world_ready demo_files) (demo_summary "a.analysis")
              [("/root/Shared.scala", ["/out/A/Shared.class"]);
               ("/root/A.scala", ["/out/A/A.class"])] [] ∅ ∅)
    as (w1 & w2 & m2 & H1 & H2 & Hp & Hc & Hlook).
  - vm_compute. reflexivity.
  - vm_compute. reflexivity.
  - vm_compute. reflexivity.
  - reflexivity.
  - reflexivity.
  - exists w1, w2. split_and!; [exact H1|exact H2|exact Hp|].
    rewrite Hc. simpl. specialize (Hlook "A.scala").
    destruct (m2 !! "A.scala") as [l|] eqn:E; simpl in Hlook.
    + rewrite Hlook. vm_compute. reflexivity.
    + exfalso. revert Hlook. vm_compute. discriminate.
Defined.

(** X11: the summaries of two different targets can be registered in
    either order: the per-target map comes out the same, and every
    per-source entry holds the same tagged outputs, up to their order. *)
Theorem register_products_order env t1 cp1 f1 doc1 t2 cp2 f2 doc2 w
    (m : gmap string MultipleRootedProducts) (d : gmap Target EdgeData) :
  t1 ≠ t2 →
  fs w !! f1 = Some (JsonDoc doc1) → is_Some (sj_products doc1) →
  is_Some (sj_dependencies doc1) →
  fs w !! f2 = Some (JsonDoc doc2) → is_Some (sj_products doc2) →
  is_Some (sj_dependencies doc2) →
  the_classes_by_source w = Some m →
  the_product_deps_by_src w = Some d →
  ∃ w1 w12 w2 w21 (m12 m21 : gmap string MultipleRootedProducts),
    _register_products env t1 cp1 f1 (Some Ref) (Some Ref) w = (w1, inr tt)
    ∧ _register_products env t2 cp2 f2 (Some Ref) (Some Ref) w1 = (w12, inr tt)
    ∧ _register_products env t2 cp2 f2 (Some Ref) (Some Ref) w = (w2, inr tt)
    ∧ _register_products env t1 cp1 f1 (Some Ref) (Some Ref) w2 = (w21, inr tt)
    ∧ the_product_deps_by_src w12 = the_product_deps_by_src w21
    ∧ the_classes_by_source w12 = Some m12
    ∧ the_classes_by_source w21 = Some m21
    ∧ ∀ source, default [] (m12 !! source) ≡ₚ default [] (m21 !! source).
Proof.
  intros Hne Hf1 Hp1 Hd1 Hf2 Hp2 Hd2 Hm Hd.
  destruct (register_products_total env t1 cp1 f1 (Some Ref) (Some Ref) w doc1 Hf1)
    as (w1 & Hr1 & Hfs1 & _ & Hc1 & Hq1); [by right..|].
  destruct (register_products_total env t2 cp2 f2 (Some Ref) (Some Ref) w1 doc2)
    as (w12 & Hr12 & _ & _ & Hc12 & Hq12); [by rewrite Hfs1|by right..|].
  destruct (register_products_total env t2 cp2 f2 (Some Ref) (Some Ref) w doc2 Hf2)
    as (w2 & Hr2 & Hfs2 & _ & Hc2 & Hq2); [by right..|].
  destruct (register_products_total env t1 cp1 f1 (Some Ref) (Some Ref) w2 doc1)
    as (w21 & Hr21 & _ & _ & Hc21 & Hq21); [by rewrite Hfs2|by right..|].
  rewrite Hm in Hc1, Hc2. rewrite Hd in Hq1, Hq2.
  rewrite Hc1 in Hc12. rewrite Hc2 in Hc21. rewrite Hq1 in Hq12. rewrite Hq2 in Hq21.
  simpl in *.
  exists w1, w12, w2, w21. eexists; eexists.
  split_and!; [done|done|done|done| |exact Hc12|exact Hc21|].
  - rewrite Hq12, Hq21. f_equal. by apply insert_insert_ne.
  - intros source. rewrite !merge_products_lookup, <- !app_assoc.
    apply Permutation_app_head, Permutation_app_comm.
Qed.

Lemma register_products_order_witness :
  ∃ w12 w21,
    _register_products (demo_env 0 []) "B" "/out/B" "/cache/B/summary.json"
      (Some Ref) (Some Ref)
      (_register_products (demo_env 0 []) "A" "/out/A" "/cache/A/summary.json"
         (Some Ref) (Some Ref) (demo_world_ready demo_files)).1 = (w12, inr tt)
    ∧ _register_products (demo_env 0 []) "A" "/out/A" "/cache/A/summary.json"
        (Some Ref) (Some Ref)
        (_register_products (demo_env 0 []) "B" "/out/B" "/cache/B/summary.json"
           (Some Ref) (Some Ref) (demo_world_ready demo_files)).1 = (w21, inr tt)
    ∧ the_product_deps_by_src w12 = the_product_deps_by_src w21.
Proof.
  destruct (register_products_order (demo_env 0 [])
              "A" "/out/A" "/cache/A/summary.json" (demo_summary "a.analysis")
              "B" "/out/B" "/cache/B/summary.json" (demo_summary "b.analysis")
              (demo_world_ready demo_files) ∅ ∅)
    as (w1 & w12 & w2 & w21 & m12 & m21 & H1 & H12 & H2 & H21 & Hp & _).
  - done.
  - vm_compute. reflexivity.
  - vm_compute. by eexists.
  - vm_compute. by eexists.
  - vm_compute. reflexivity.
  - vm_compute. by eexists.
  - vm_compute. by eexists.
  - reflexivity.
  - reflexivity.
  - exists w12, w21. rewrite H1, H2. simpl. done.
Defined.

(** *** Runs in which every target is a cache hit *)

Lemma preserves_for_each_in {A X} (f : World → X) (l : list A) (body : A → M unit) :
  (∀ x, x ∈ l → preserves f (body x)) → preserves f (for_each l body).
Proof.
  induction l as [|x l IH]; intros Hb; simpl; [done|].
  apply preserves_bind; [apply Hb; left|].
  intros _. apply IH. intros y Hy. apply Hb. by right.
Qed.

Lemma register_products_tool_runs env target cp f cbs pds :
  preserves tool_runs (_register_products env target cp f cbs pds).
Proof.
  rewrite register_products_unfold. unfold _parse_summary_json.
  apply preserves_bind; [apply preserves_bind|].
  - intros w. unfold tool_runs. simpl. rewrite filter_app. simpl.
    by rewrite filter_cons_False, filter_nil, app_nil_r.
  - intros _. apply json_load_preserves.
  - intros doc. by apply register_parsed_preserves.
Qed.

Lemma execute_vt_preserves {X} (f : World → X) env za cbs pds vt :
  (vt_valid vt = false → ∀ w fs' tr',
     f {| products := products w; fs := fs'; trace := tr' |} = f w) →
  preserves f (_register_products env (vt_target vt) (cp_entry_of za (vt_target vt))
                 (_summary_json_file vt) cbs pds) →
  preserves f (execute_vt env za cbs pds vt).
Proof.
  intros Hex Hreg. unfold execute_vt, cp_entry_of in *.
  destruct (za !! vt_target vt) as [[[cp jar] af]|]; [|by intros ?].
  apply preserves_bind; [|intros _; exact Hreg].
  destruct (vt_valid vt); simpl; [by intros ?|].
  apply extract_analysis_preserves. by apply Hex.
Qed.

(** X12: when the invalidation check finds every target valid, [execute]
    never invokes the tool and leaves the files as they are, however the
    run ends. *)
Theorem execute_all_valid_no_tool env w :
  (∀ vt, vt ∈ invalidated env (map_to_list (the_zinc_analysis w)).*1 →
         vt_valid vt = true) →
  tool_runs (execute env w).1 = tool_runs w ∧ fs (execute env w).1 = fs w.
Proof.
  intros Hvalid.
  destruct (create_products_run w) as (w1 & Hc & _ & _ & Hza & _ & Hfs & Htr).
  rewrite (execute_run env w w1 _ Hc).
  assert (tool_runs w1 = tool_runs w) as Hruns by (unfold tool_runs; by rewrite Htr).
  destruct (_ || _); [|done]. rewrite Hza.
  split.
  - rewrite <- Hruns. apply preserves_for_each_in. intros vt Hvt.
    apply execute_vt_preserves; [|apply register_products_tool_runs].
    intros Hfalse. rewrite (Hvalid vt Hvt) in Hfalse. done.
  - rewrite <- Hfs. apply preserves_for_each_in. intros vt Hvt.
    apply execute_vt_preserves; [|by apply register_products_preserves].
    intros Hfalse. rewrite (Hvalid vt Hvt) in Hfalse. done.
Qed.

Lemma execute_all_valid_no_tool_witness :
  tool_runs (execute (demo_env 0 ["A"; "B"]) (demo_world both_kinds demo_files)).1 = []
  ∧ fs (execute (demo_env 0 ["A"; "B"]) (demo_world both_kinds demo_files)).1 = demo_files.
Proof.
  apply (execute_all_valid_no_tool (demo_env 0 ["A"; "B"])
           (demo_world both_kinds demo_files)).
  intros vt Hvt. revert vt Hvt. apply Forall_forall. vm_compute.
  repeat constructor.
Defined.

(** *** Runs that fail *)

Lemma bind_inl {A B} (m : M A) (k : A → M B) w w' e :
  (m ≫= k) w = (w', inl e) →
  m w = (w', inl e) ∨ ∃ a w1, m w = (w1, inr a) ∧ k a w1 = (w', inl e).
Proof.
  unfold mbind, M_bind. destruct (m w) as [w1 [e1|a]]; [left|right; eauto].
  congruence.
Qed.

Lemma preserves_run {A X} (f : World → X) (m : M A) w w' r :
  preserves f m → m w = (w', r) → f w' = f w.
Proof. intros Hp Hrun. specialize (Hp w). by rewrite Hrun in Hp. Qed.

Lemma register_parsed_inl_deps env target cp cbs pds doc w w' e :
  register_parsed env target cp cbs pds doc w = (w', inl e) →
  the_product_deps_by_src w' = the_product_deps_by_src w.
Proof.
  unfold register_parsed. intros [H|(u & w1 & H1 & H2)]%bind_inl.
  - eapply preserves_run; [|exact H].
    unfold classes_by_source_add. frame_task.
  - transitivity (the_product_deps_by_src w1).
    + destruct pds as [[]|]; [|done].
      destruct (sj_dependencies doc); [done|]. by injection H2 as <-.
    + eapply preserves_run; [|exact H1].
      unfold classes_by_source_add. frame_task.
Qed.

Lemma execute_vt_inl_deps env za cbs pds vt w w' e :
  execute_vt env za cbs pds vt w = (w', inl e) →
  the_product_deps_by_src w' = the_product_deps_by_src w.
Proof.
  unfold execute_vt.
  destruct (za !! vt_target vt) as [[[cp jar] af]|]; [|by intros [= <-]].
  assert (preserves the_product_deps_by_src
            (if negb (vt_valid vt)
             then _extract_analysis env (vt_target vt) af (_summary_json_file vt)
             else mret tt)) as Hex.
  { destruct (negb (vt_valid vt)); [by apply extract_analysis_preserves|by intros ?]. }
  intros [H|(u & w1 & H1 & H2)]%bind_inl; [by eapply preserves_run|].
  rewrite <- (preserves_run _ _ _ _ _ Hex H1).
  rewrite register_products_unfold in H2.
  apply bind_inl in H2 as [H|(doc & w2 & H2 & H3)].
  - eapply preserves_run; [|exact H].
    unfold _parse_summary_json. frame_task.
  - rewrite (register_parsed_inl_deps _ _ _ _ _ _ _ _ _ H3).
    eapply preserves_run; [|exact H2].
    unfold _parse_summary_json. frame_task.
Qed.

Lemma loop_inl env za cbs pds : ∀ vts w w' e,
  for_each vts (execute_vt env za cbs pds) w = (w', inl e) →
  the_zinc_analysis w = za →
  ∃ k docs, k < length vts ∧ length docs = k
    ∧ the_product_deps_by_src w'
      = match pds with
        | Some _ => (λ m, foldl merge_deps m (zip (take k vts) docs))
                      <$> the_product_deps_by_src w
        | None => the_product_deps_by_src w
        end.
Proof.
  induction vts as [|vt vts IH]; intros w w' e Hrun Hza; [done|].
  cbn [for_each] in Hrun. apply bind_inl in Hrun as [H|([] & w1 & H1 & H2)].
  - exists 0, []. split; [simpl; lia|]. split; [done|].
    rewrite (execute_vt_inl_deps _ _ _ _ _ _ _ _ H).
    destruct pds, (the_product_deps_by_src w); done.
  - apply execute_vt_inr in H1 as (_ & _ & Hza1 & _ & doc & _ & Hp1); [|done].
    apply IH in H2 as (k & docs & Hk & Hlen & Hp); [|done].
    exists (S k), (doc :: docs). split; [simpl; lia|]. split; [simpl; by rewrite Hlen|].
    rewrite Hp, Hp1. simpl.
    destruct pds, (the_product_deps_by_src w); done.
Qed.

Lemma for_each_inl {A} (body : A → M unit) : ∀ (l : list A) w w' e,
  for_each l body w = (w', inl e) →
  ∃ k x w_k, l !! k = Some x
    ∧ for_each (take k l) body w = (w_k, inr tt)
    ∧ body x w_k = (w', inl e).
Proof.
  induction l as [|a l IH]; intros w w' e Hrun; [done|].
  cbn [for_each] in Hrun. apply bind_inl in Hrun as [H|([] & w1 & H1 & H2)].
  - by exists 0, a, w.
  - apply IH in H2 as (k & x & w_k & Hk & Hpre & Hfail).
    exists (S k), x, w_k. split; [done|]. split; [|done].
    cbn [take for_each]. by rewrite (bind_step _ _ _ _ _ H1).
Qed.

Lemma execute_vt_restrict env vts : execute_vt (restrict_to env vts) = execute_vt env.
Proof. reflexivity. Qed.

Lemma ref_of_fmap {A} name (f : A → A) (o : option A) :
  ref_of name (f <$> o) = ref_of name o.
Proof. by destruct o. Qed.

(** X13: a run that was asked for the per-target map and fails does not
    roll anything back.  The failure is that of one versioned target, the
    one at some position [k] of the invalidation check's list: the run
    over the targets before it alone completes, the step for that target,
    taken from where that run ends, raises the error and leaves the world
    the failed run ends in; and the registry's per-target map is then still
    the one the completed part built, with an entry for each of the [k]
    targets before the failing one and for no other. *)
Theorem execute_failure_keeps_earlier_entries env w w' e :
  execute env w = (w', inl e) →
  "product_deps_by_src" ∈ the_required w →
  let za := the_zinc_analysis w in
  let all_vts := invalidated env (map_to_list za).*1 in
  ∃ k vt w_k (m : gmap Target EdgeData),
    all_vts !! k = Some vt
    ∧ execute (restrict_to env (take k all_vts)) w = (w_k, inr tt)
    ∧ execute_vt env za (ref_of "classes_by_source" (the_classes_by_source w_k))
        (Some Ref) vt w_k = (w', inl e)
    ∧ the_product_deps_by_src w_k = Some m
    ∧ the_product_deps_by_src w' = Some m
    ∧ dom m = list_to_set (vt_target <$> take k all_vts).
Proof.
  intros Hrun Hreq za all_vts.
  destruct (create_products_run w) as (w1 & Hc & _ & Hpds & Hza & _).
  rewrite (execute_run env w w1 _ Hc) in Hrun.
  rewrite bool_decide_eq_true_2 in Hpds by done.
  assert (bool_decide ("classes_by_source" ∈ the_required w)
          || bool_decide ("product_deps_by_src" ∈ the_required w) = true) as Hgo.
  { rewrite (bool_decide_eq_true_2 ("product_deps_by_src" ∈ _)) by done.
    apply orb_true_r. }
  rewrite Hgo in Hrun, Hc. rewrite Hza in Hrun. fold za all_vts in Hrun.
  rewrite Hpds in Hrun. simpl ref_of in Hrun.
  apply for_each_inl in Hrun as (k & vt & w_k & Hk & Hpre & Hfail).
  assert (execute (restrict_to env (take k all_vts)) w = (w_k, inr tt)) as Hpart.
  { rewrite (execute_run (restrict_to env (take k all_vts)) w w1 _ Hc).
    rewrite execute_vt_restrict, Hza, Hpds. exact Hpre. }
  destruct (execute_product_deps_dom _ _ _ Hpart Hreq) as (m & Hm & Hdom).
  exists k, vt, w_k, m. split_and!; try done.
  - apply loop_inr in Hpre as (_ & _ & _ & docs & _ & Hcbs & _); [|done].
    rewrite Hcbs. by destruct (the_classes_by_source w1).
  - rewrite <- Hm. by eapply execute_vt_inl_deps.
Qed.

Lemma execute_failure_keeps_earlier_entries_witness :
  let env := demo_env 1 ["A"] in
  let w := demo_world both_kinds demo_files in
  let w' := (execute env w).1 in
  let za := the_zinc_analysis w in
  let all_vts := invalidated env (map_to_list za).*1 in
  ∃ k vt w_k (m : gmap Target EdgeData),
    all_vts !! k = Some vt
    ∧ execute (restrict_to env (take k all_vts)) w = (w_k, inr tt)
    ∧ execute_vt env za (ref_of "classes_by_source" (the_classes_by_source w_k))
        (Some Ref) vt w_k = (w', inl (NameError "TaskError"))
    ∧ the_product_deps_by_src w_k = Some m
    ∧ the_product_deps_by_src w' = Some m
    ∧ dom m = list_to_set (vt_target <$> take k all_vts).
Proof.
  apply (execute_failure_keeps_earlier_entries (demo_env 1 ["A"])
           (demo_world both_kinds demo_files) _ (NameError "TaskError")).
  - vm_compute. reflexivity.
  - apply (bool_decide_unpack _). vm_compute. exact I.
Defined.

(** On the example the failing target is B, at position 1, after A was
    merged from its summary on disk. *)
Example failed_run_fails_at_B :
  let env := demo_env 1 ["A"] in
  let w := demo_world both_kinds demo_files in
  let all_vts := invalidated env (map_to_list (the_zinc_analysis w)).*1 in
  vt_target <$> all_vts = ["A"; "B"]
  ∧ (execute (restrict_to env (take 1 all_vts)) w).2 = inr tt
  ∧ (execute (restrict_to env (take 2 all_vts)) w).2 = inl (NameError "TaskError")
  ∧ the_product_deps_by_src (execute (restrict_to env (take 1 all_vts)) w).1
    = Some {[ "A" := [] ]}
  ∧ the_product_deps_by_src (execute env w).1 = Some {[ "A" := [] ]}.
Proof. vm_compute. done. Qed.

Example failed_run_is_partly_merged :
  the_product_deps_by_src
    (execute (demo_env 1 ["A"]) (demo_world both_kinds demo_files)).1
  = Some {[ "A" := [] ]}.
Proof. vm_compute. reflexivity. Qed.

(** *** What a run never touches *)

(** X14: however it ends, [execute] leaves the [zinc_analysis] product and
    the set of required products as it found them. *)
Theorem execute_keeps_inputs env w :
  the_zinc_analysis (execute env w).1 = the_zinc_analysis w
  ∧ the_required (execute env w).1 = the_required w.
Proof.
  destruct (create_products_run w) as (w1 & Hc & _ & _ & Hza & Hrq & _).
  rewrite (execute_run env w w1 _ Hc).
  destruct (_ || _); [|done]. split.
  - rewrite <- Hza. apply preserves_for_each. intros vt.
    apply execute_vt_preserves; [done|by apply register_products_preserves].
  - rewrite <- Hrq. apply preserves_for_each. intros vt.
    apply execute_vt_preserves; [done|by apply register_products_preserves].
Qed.

(** *** Cache hits and cache misses *)

Lemma respects_bind {A B} (m : M A) (k : A → M B) :
  respects m → (∀ a, respects (k a)) → respects (m ≫= k).
Proof.
  intros Hm Hk w w0 Hp. unfold mbind, M_bind.
  destruct (Hm w w0 Hp) as [H1 H2].
  destruct (m w) as [w1 [e|a]], (m w0) as [w2 [e0|a0]]; simpl in *; simplify_eq; [done|].
  by apply Hk.
Qed.

Lemma respects_for_each {A} (l : list A) (body : A → M unit) :
  (∀ x, respects (body x)) → respects (for_each l body).
Proof.
  intros Hb. induction l as [|x l IH]; simpl; [by intros w w0 Hp|].
  apply respects_bind; [apply Hb|done].
Qed.

Lemma register_parsed_respects env target cp cbs pds doc :
  respects (register_parsed env target cp cbs pds doc).
Proof.
  unfold register_parsed, classes_by_source_add, product_deps_by_src_set.
  repeat first
    [ apply respects_bind; [|intros ?]
    | apply respects_for_each; intros [??]
    | match goal with
      | |- respects (match ?x with _ => _ end) => destruct x
      end
    | solve [intros w w0 Hp; simpl; rewrite ?Hp; done] ].
Qed.

(** X15: for a target whose summary is on disk, it makes no difference to
    the registry whether the target is a cache hit, or a cache miss for
    which the tool exits with 0 and leaves that same summary: both ways end
    alike and leave the same products; only the miss invokes the tool. *)
Theorem cache_hit_merges_like_miss env za cbs pds target dir w x doc :
  the_zinc_analysis w = za →
  za !! target = Some x →
  let hit := {| vt_target := target; vt_valid := true; vt_results_dir := dir |} in
  let miss := {| vt_target := target; vt_valid := false; vt_results_dir := dir |} in
  let args := extractor_args env (_analysis_by_runtime_entry za) target x.2
                (_summary_json_file miss) in
  fs w !! _summary_json_file hit = Some (JsonDoc doc) →
  (runjava env args (fs w)).1 = 0%Z →
  (runjava env args (fs w)).2 !! _summary_json_file miss = Some (JsonDoc doc) →
  products (execute_vt env za cbs pds hit w).1
  = products (execute_vt env za cbs pds miss w).1
  ∧ (execute_vt env za cbs pds hit w).2 = (execute_vt env za cbs pds miss w).2
  ∧ tool_runs (execute_vt env za cbs pds hit w).1 = tool_runs w
  ∧ tool_runs (execute_vt env za cbs pds miss w).1
    = tool_runs w ++ [RunJava main_class args].
Proof.
  intros Hza Hx hit miss args Hf Hexit Hf'.
  destruct x as [[cp jar] af]. simpl in args.
  assert (execute_vt env za cbs pds hit w
          = _register_products env target cp (_summary_json_file hit) cbs pds w) as Hhit.
  { unfold execute_vt, hit. cbn [vt_target vt_valid]. rewrite Hx. reflexivity. }
  assert (execute_vt env za cbs pds miss w
          = _register_products env target cp (_summary_json_file hit) cbs pds
              {| products := products w; fs := (runjava env args (fs w)).2;
                 trace := trace w ++ [RunJava main_class args] |}) as Hmiss.
  { unfold execute_vt, miss. cbn [vt_target vt_valid]. rewrite Hx. simpl negb. cbv iota.
    fold miss.
    pose proof (extract_analysis_run env target af (_summary_json_file miss) w) as Hrun.
    cbv zeta in Hrun. rewrite Hza in Hrun. fold args in Hrun.
    rewrite Hexit in Hrun. rewrite decide_False in Hrun by (by intros H; apply H).
    by rewrite (bind_step _ _ _ _ _ Hrun). }
  rewrite Hhit, Hmiss.
  split_and!.
  - rewrite !register_products_unfold.
    rewrite (bind_step _ _ _ _ _ (parse_summary_json_ok _ w doc Hf)).
    rewrite (bind_step _ _ _ _ _
               (parse_summary_json_ok (_summary_json_file hit)
                  {| products := products w; fs := (runjava env args (fs w)).2;
                     trace := trace w ++ [RunJava main_class args] |} doc Hf')).
    by apply register_parsed_respects.
  - rewrite !register_products_unfold.
    rewrite (bind_step _ _ _ _ _ (parse_summary_json_ok _ w doc Hf)).
    rewrite (bind_step _ _ _ _ _
               (parse_summary_json_ok (_summary_json_file hit)
                  {| products := products w; fs := (runjava env args (fs w)).2;
                     trace := trace w ++ [RunJava main_class args] |} doc Hf')).
    by apply register_parsed_respects.
  - apply register_products_tool_runs.
  - rewrite register_products_tool_runs. unfold tool_runs. simpl.
    rewrite filter_app. done.
Qed.

Lemma cache_hit_merges_like_miss_witness :
  let hit := {| vt_target := "B"; vt_valid := true; vt_results_dir := "/cache/B" |} in
  let miss := {| vt_target := "B"; vt_valid := false; vt_results_dir := "/cache/B" |} in
  products (execute_vt (demo_env 0 []) demo_zinc_analysis (Some Ref) (Some Ref) hit
              (demo_world_ready demo_files)).1
  = products (execute_vt (demo_env 0 []) demo_zinc_analysis (Some Ref) (Some Ref) miss
                (demo_world_ready demo_files)).1
  ∧ length (tool_runs (execute_vt (demo_env 0 []) demo_zinc_analysis (Some Ref) (Some Ref)
                         miss (demo_world_ready demo_files)).1) = 1.
Proof.
  intros hit miss.
  destruct (cache_hit_merges_like_miss (demo_env 0 []) demo_zinc_analysis
              (Some Ref) (Some Ref) "B" "/cache/B" (demo_world_ready demo_files)
              ("/out/B", "libB.jar", "b.analysis") (demo_summary "b.analysis"))
    as (Hp & _ & _ & Hruns).
  - reflexivity.
  - vm_compute. reflexivity.
  - vm_compute. reflexivity.
  - vm_compute. reflexivity.
  - vm_compute. reflexivity.
  - split; [exact Hp|]. unfold miss. rewrite Hruns. vm_compute. reflexivity.
Defined.

(** *** Sufficient conditions for a run to complete *)

Lemma loop_valid_total env za cbs pds : ∀ vts w,
  (∀ vt, vt ∈ vts →
     vt_valid vt = true ∧ is_Some (za !! vt_target vt)
     ∧ ∃ doc, fs w !! _summary_json_file vt = Some (JsonDoc doc)
              ∧ is_Some (sj_products doc) ∧ is_Some (sj_dependencies doc)) →
  ∃ w', for_each vts (execute_vt env za cbs pds) w = (w', inr tt) ∧ fs w' = fs w.
Proof.
  induction vts as [|vt vts IH]; intros w Hall; [by eexists|].
  destruct (Hall vt) as (Hvalid & [[[cp jar] af] Hx] & doc & Hf & Hp & Hd); [left|].
  destruct (register_products_total env (vt_target vt) cp (_summary_json_file vt)
              cbs pds w doc Hf) as (w1 & Hrun & Hfs & _); [by right..|].
  destruct (IH w1) as (w' & Hrest & Hfs').
  { intros v Hv. rewrite Hfs. apply Hall. by right. }
  exists w'. split; [|congruence].
  cbn [for_each].
  assert (execute_vt env za cbs pds vt w = (w1, inr tt)) as Hvt.
  { unfold execute_vt. rewrite Hx, Hvalid. exact Hrun. }
  by rewrite (bind_step _ _ _ _ _ Hvt).
Qed.

(** X16: when every versioned target is valid, is known to
    [zinc_analysis], and has on disk a summary with both sections,
    [execute] completes. *)
Theorem execute_all_valid_completes env w :
  (∀ vt, vt ∈ invalidated env (map_to_list (the_zinc_analysis w)).*1 →
     vt_valid vt = true ∧ is_Some (the_zinc_analysis w !! vt_target vt)
     ∧ ∃ doc, fs w !! _summary_json_file vt = Some (JsonDoc doc)
              ∧ is_Some (sj_products doc) ∧ is_Some (sj_dependencies doc)) →
  ∃ w', execute env w = (w', inr tt).
Proof.
  intros Hall.
  destruct (create_products_run w) as (w1 & Hc & _ & _ & Hza & _ & Hfs & _).
  rewrite (execute_run env w w1 _ Hc).
  destruct (_ || _); [|by eexists]. rewrite Hza.
  match goal with |- context [for_each ?vts (execute_vt _ ?za ?cbs ?pds) _] =>
    destruct (loop_valid_total env za cbs pds vts w1) as (w' & Hrun & _)
  end.
  - intros vt Hvt. rewrite Hfs. by apply Hall.
  - by exists w'.
Qed.

Lemma execute_all_valid_completes_witness :
  ∃ w', execute (demo_env 1 ["A"; "B"]) (demo_world both_kinds demo_files) = (w', inr tt).
Proof.
  apply (execute_all_valid_completes (demo_env 1 ["A"; "B"])
           (demo_world both_kinds demo_files)).
  apply Forall_forall. vm_compute.
  repeat (constructor; [split; [reflexivity|split; [by eexists|
    eexists; split; [reflexivity|split; by eexists]]]|]).
  constructor.
Defined.

(** X17: a cache hit whose summary cannot be read fails the target: for a
    valid versioned target known to [zinc_analysis], a missing summary
    raises [IOError] and one that is not JSON raises [ValueError]; the tool
    is not run to regenerate it and the registry is unchanged. *)
Theorem cache_hit_unreadable_summary env za cbs pds vt w x :
  za !! vt_target vt = Some x →
  vt_valid vt = true →
  (∀ doc, fs w !! _summary_json_file vt ≠ Some (JsonDoc doc)) →
  execute_vt env za cbs pds vt w
  = ({| products := products w; fs := fs w;
        trace := trace w ++ [OpenRead (_summary_json_file vt)] |},
     inl (match fs w !! _summary_json_file vt with
          | Some _ => ValueError (_summary_json_file vt)
          | None => IOError (_summary_json_file vt)
          end)).
Proof.
  intros Hx Hvalid Hbad. unfold execute_vt. rewrite Hx, Hvalid.
  destruct x as [[cp jar] af]. simpl negb. cbv iota.
  rewrite <- (register_products_unreadable env (vt_target vt) cp (_summary_json_file vt)
                cbs pds w Hbad).
  reflexivity.
Qed.

Lemma cache_hit_unreadable_summary_witness :
  (execute_vt (demo_env 0 ["A"]) demo_zinc_analysis (Some Ref) (Some Ref)
     {| vt_target := "A"; vt_valid := true; vt_results_dir := "/cache/A" |}
     (demo_world_ready ∅)).2
  = inl (IOError "/cache/A/summary.json").
Proof.
  rewrite (cache_hit_unreadable_summary (demo_env 0 ["A"]) demo_zinc_analysis
             (Some Ref) (Some Ref)
             {| vt_target := "A"; vt_valid := true; vt_results_dir := "/cache/A" |}
             (demo_world_ready ∅) ("/out/A", "libA.jar", "a.analysis")).
  - reflexivity.
  - vm_compute. reflexivity.
  - reflexivity.
  - intros doc. vm_compute. discriminate.
Defined.

(** X18: the argument list of the tool always consists of the four
    flag/value pairs followed by the rebase arguments, also when there is
    nothing to pass: an empty classpath gives an empty [-classpath] value,
    and a classpath without any known analysis gives an empty
    [-analysis-map] value. *)
Theorem extractor_args_shape env (m : gmap string string) target
    analysis_file summary_json_file :
  let args := extractor_args env m target analysis_file summary_json_file in
  length args = 8 + length (rebase_map_args env)
  ∧ drop 8 args = rebase_map_args env
  ∧ take 5 args
    = ["-summary-json"; summary_json_file; "-analysis-cache"; analysis_file; "-classpath"]
  ∧ args !! 6 = Some "-analysis-map"
  ∧ (compile_classpath env target = [] → args !! 5 = Some "" ∧ args !! 7 = Some "")
  ∧ ((∀ entry, entry ∈ compile_classpath env target → m !! entry = None) →
     args !! 7 = Some "").
Proof.
  intros args. unfold args, extractor_args. split_and!; try reflexivity.
  - intros ->. by split.
  - intros Hnone. cbn [lookup list_lookup app]. f_equal.
    assert (_upstream_analysis (compile_classpath env target) m = []) as ->; [|done].
    induction (compile_classpath env target) as [|e l IH]; [done|].
    cbn [_upstream_analysis]. rewrite (Hnone e) by left.
    apply IH. intros entry He. apply Hnone. by right.
Qed.

(** X19: when the invalidation check returns no versioned target, a run
    that goes ahead completes at once: the required maps exist and are
    empty, the other slot is as before, and nothing was run or read. *)
Theorem execute_no_targets env w :
  invalidated env (map_to_list (the_zinc_analysis w)).*1 = [] →
  "classes_by_source" ∈ the_required w ∨ "product_deps_by_src" ∈ the_required w →
  ∃ w', execute env w = (w', inr tt)
      ∧ the_classes_by_source w'
        = (if decide ("classes_by_source" ∈ the_required w)
           then Some ∅ else the_classes_by_source w)
      ∧ the_product_deps_by_src w'
        = (if decide ("product_deps_by_src" ∈ the_required w)
           then Some ∅ else the_product_deps_by_src w)
      ∧ trace w' = trace w
      ∧ fs w' = fs w.
Proof.
  intros Hnil Hreq.
  destruct (create_products_run w) as (w1 & Hc & Hcbs & Hpds & Hza & _ & Hfs & Htr).
  rewrite (execute_run env w w1 _ Hc).
  rewrite orb_true_intro.
  2:{ destruct Hreq as [H|H]; [left|right]; by apply bool_decide_eq_true. }
  rewrite Hza, Hnil. exists w1. split; [reflexivity|]. split_and!; try done.
  - rewrite Hcbs. by destruct (decide _); [rewrite bool_decide_eq_true_2|rewrite bool_decide_eq_false_2].
  - rewrite Hpds. by destruct (decide _); [rewrite bool_decide_eq_true_2|rewrite bool_decide_eq_false_2].
Qed.

Lemma execute_no_targets_witness :
  ∃ w', execute (demo_env 1 [])
          {| products := {| required_data_products := ["classes_by_source"];
                            zinc_analysis := ∅;
                            classes_by_source := None;
                            product_deps_by_src := None |};
             fs := ∅; trace := [] |} = (w', inr tt)
      ∧ the_classes_by_source w' = Some ∅
      ∧ the_product_deps_by_src w' = None.
Proof.
  destruct (execute_no_targets (demo_env 1 [])
              {| products := {| required_data_products := ["classes_by_source"];
                                zinc_analysis := ∅;
                                classes_by_source := None;
                                product_deps_by_src := None |};
                 fs := ∅; trace := [] |})
    as (w' & Hrun & Hc & Hp & _).
  - vm_compute. reflexivity.
  - left. apply (bool_decide_unpack _). vm_compute. exact I.
  - exists w'. split; [exact Hrun|]. rewrite Hc, Hp. split; vm_compute; reflexivity.
Defined.

(** ** Further properties of the sorter's task *)

(** X20: whatever [console_output] prints is a target root that the sort
    returned, and every target root that the sort returned is printed, for
    either setting of [reverse]; so the two settings print the same
    targets. *)
Theorem console_output_prints_sorted_roots g reverse target_roots targets out :
  console_output g reverse target_roots targets = Done out →
  ∃ sorted_targets,
    sort_targets g targets = Done sorted_targets
    ∧ (∀ x, x ∈ out ↔ x ∈ target_roots ∧ x ∈ sorted_targets)
    ∧ length out ≤ length sorted_targets.
Proof.
  unfold console_output.
  destruct (sort_targets g targets) as [l| |]; [|done..].
  intros [= <-]. exists l. split; [done|].
  unfold address_reference. rewrite list_fmap_id. split.
  - intros x. rewrite list_elem_of_filter.
    destruct reverse; simpl; [done|].
    by rewrite rev_is_reverse, elem_of_reverse.
  - etrans; [apply length_filter|].
    destruct reverse; simpl; [done|]. by rewrite length_rev.
Qed.

Lemma console_output_prints_sorted_roots_witness :
  ∃ sorted_targets,
    sort_targets demo_graph ["common/c"] = Done sorted_targets
    ∧ (∀ x, x ∈ ["common/a"; "common/c"]
            ↔ x ∈ ["common/c"; "common/a"; "elsewhere"] ∧ x ∈ sorted_targets)
    ∧ length ["common/a"; "common/c"] ≤ length sorted_targets.
Proof.
  apply (console_output_prints_sorted_roots demo_graph false
           ["common/c"; "common/a"; "elsewhere"] ["common/c"]).
  vm_compute. reflexivity.
Defined.

(** X21: only membership in the target roots matters to [console_output]:
    two root collections with the same members, in whatever order and
    multiplicity, give the same result. *)
Theorem console_output_roots_as_set g reverse roots1 roots2 targets :
  (∀ x, x ∈ roots1 ↔ x ∈ roots2) →
  console_output g reverse roots1 targets = console_output g reverse roots2 targets.
Proof.
  intros Hsame. unfold console_output.
  destruct (sort_targets g targets) as [l| |]; [|done..].
  f_equal. f_equal. by apply list_filter_iff.
Qed.

Lemma console_output_roots_as_set_witness :
  console_output demo_graph true ["common/a"; "common/c"] ["common/c"]
  = console_output demo_graph true ["common/c"; "common/a"; "common/c"] ["common/c"].
Proof.
  apply (console_output_roots_as_set demo_graph true).
  intros x. rewrite !elem_of_cons. rewrite !elem_of_nil. tauto.
Defined.

(** ** The tool's exit status, in general *)

(** X22: whatever the target and the non-zero exit status, the tool is
    invoked exactly once (nothing is retried), the products registry is as
    before, and [_extract_analysis] ends in the [NameError] for the unbound
    [TaskError]. *)
Theorem extract_analysis_exit_nonzero env target analysis_file summary_json_file w :
  (runjava env
     (extractor_args env (_analysis_by_runtime_entry (the_zinc_analysis w))
        target analysis_file summary_json_file) (fs w)).1 ≠ 0%Z →
  ∃ w', _extract_analysis env target analysis_file summary_json_file w
        = (w', inl (NameError "TaskError"))
      ∧ products w' = products w
      ∧ tool_runs w' = tool_runs w ++
          [RunJava "org.pantsbuild.zinc.extractor.Main"
             (extractor_args env (_analysis_by_runtime_entry (the_zinc_analysis w))
                target analysis_file summary_json_file)].
Proof.
  intros Hexit. rewrite extract_analysis_run. cbv zeta.
  rewrite decide_True by done.
  eexists. split; [reflexivity|]. split; [done|].
  unfold tool_runs. simpl. rewrite filter_app. done.
Qed.

Lemma extract_analysis_exit_nonzero_witness :
  ∃ w', _extract_analysis (demo_env 3 []) "B" "b.analysis" "/cache/B/summary.json"
          (demo_world both_kinds ∅) = (w', inl (NameError "TaskError"))
      ∧ length (tool_runs w') = 1.
Proof.
  destruct (extract_analysis_exit_nonzero (demo_env 3 []) "B" "b.analysis"
              "/cache/B/summary.json" (demo_world both_kinds ∅))
    as (w' & Hrun & _ & Hruns).
  - vm_compute. discriminate.
  - exists w'. split; [exact Hrun|]. rewrite Hruns. vm_compute. reflexivity.
Defined.
